(** * AI Data Analyst: the natural-language-to-SQL pipeline of
    [ai_data_analyst.py], embedded in Rocq.

    The script is a Streamlit page.  Its core is
    - [call_groq_model] (lines 71-88): one completion call with a fallback;
    - the prompt construction (lines 174-193);
    - the extraction of SQL or an explanation from the reply (lines 203-217);
    - the execution of the SQL with DuckDB (lines 220-239).

    Python strings are sequences of Unicode code points; they are modelled
    as lists of code points ([N]).  The remote completion service, the
    DuckDB engine and the Streamlit widgets are external: the first two are
    oracles over an abstract world, the third is a trace of events. *)

From Stdlib Require Import String Ascii.
From Stdlib Require DecimalString.
From Stdlib Require Import ZArith NArith Bool Lia List.
Import ListNotations.
Open Scope Z_scope.

(** ** Python strings *)

Module PyStr.

Definition char := N.
Definition str := list char.

(** A literal of the source, restricted to ASCII characters. *)
Definition lit (s : string) : str :=
  map N_of_ascii (list_ascii_of_string s).
Arguments lit s%_string.

Definition len (s : str) : Z := Z.of_nat (length s).

Fixpoint eqb (a b : str) : bool :=
  match a, b with
  | [], [] => true
  | x :: a', y :: b' => N.eqb x y && eqb a' b'
  | _, _ => false
  end.

(** [s.startswith(p)] *)
Fixpoint startswith (s p : str) {struct p} : bool :=
  match p, s with
  | [], _ => true
  | _ :: _, [] => false
  | c :: p', d :: s' => N.eqb c d && startswith s' p'
  end.

(** [str.isspace] on one code point: the code points with bidirectional
    type WS, B or S, or category Zs (CPython's [_PyUnicode_IsWhitespace]). *)
Definition isspace (c : char) : bool :=
  let n := Z.of_N c in
  ((9 <=? n) && (n <=? 13)) || ((28 <=? n) && (n <=? 32))
  || (n =? 133) || (n =? 160) || (n =? 5760)
  || ((8192 <=? n) && (n <=? 8202))
  || (n =? 8232) || (n =? 8233) || (n =? 8239) || (n =? 8287)
  || (n =? 12288).

Fixpoint lstrip (s : str) : str :=
  match s with
  | [] => []
  | c :: s' => if isspace c then lstrip s' else s
  end.

Definition rstrip (s : str) : str := rev (lstrip (rev s)).

(** [s.strip()] *)
Definition strip (s : str) : str := rstrip (lstrip s).

(** The scan of [s.find(sub, start)]: [s] is what is left of the string
    from position [pos] on. *)
Fixpoint find_aux (sub s : str) (pos : Z) : Z :=
  if startswith s sub then pos
  else match s with
       | [] => -1
       | _ :: s' => find_aux sub s' (pos + 1)
       end.

(** An index of a slice or of [find], clamped as Python does. *)
Definition clamp (s : str) (i : Z) : Z :=
  if i <? 0 then Z.max 0 (i + len s) else Z.min i (len s).

(** [s.find(sub, start)]: the lowest index at or after [start] where [sub]
    occurs, or -1. *)
Definition find (sub s : str) (start : Z) : Z :=
  if len s <? start then -1
  else let i := clamp s start in
       find_aux sub (skipn (Z.to_nat i) s) i.

(** [sub in s] *)
Definition contains (sub s : str) : bool :=
  negb (find sub s 0 =? -1).

(** [s[start:stop]] *)
Definition slice (s : str) (start stop : Z) : str :=
  let i := clamp s start in
  let j := clamp s stop in
  firstn (Z.to_nat (j - i)) (skipn (Z.to_nat i) s).

(** [s[start:]] *)
Definition slice_from (s : str) (start : Z) : str :=
  skipn (Z.to_nat (clamp s start)) s.

(** [sep.join(parts)] *)
Fixpoint join (sep : str) (parts : list str) : str :=
  match parts with
  | [] => []
  | [p] => p
  | p :: rest => p ++ sep ++ join sep rest
  end.

(** Truth value of a string: non-empty. *)
Definition truthy (s : str) : bool :=
  match s with [] => false | _ :: _ => true end.

(** [str.lower] on the ASCII range, where it is a map over characters. *)
Definition ascii_lower_char (c : char) : char :=
  if ((65 <=? c) && (c <=? 90))%N then (c + 32)%N else c.

Definition ascii_lower (s : str) : str := map ascii_lower_char s.

End PyStr.
Import PyStr.

(** ** Extraction of SQL or an explanation from the reply (lines 203-217) *)

Module Parser.

Definition nl : str := [10%N].

(** Lines 203-213: the value of the variable [sql]; [None] is Python's
    [None]. *)
Definition extract_sql (reply : str) : option str :=
  if contains (lit "```sql") reply then
    let start := find (lit "```sql") reply 0 + len (lit "```sql") in
    let end_ := find (lit "```") reply start in
    Some (if negb (end_ =? -1) then strip (slice reply start end_)
          else strip (slice_from reply start))
  else if contains (lit "```SQL") reply then
    let start := find (lit "```SQL") reply 0 + len (lit "```SQL") in
    let end_ := find (lit "```") reply start in
    Some (if negb (end_ =? -1) then strip (slice reply start end_)
          else strip (slice_from reply start))
  else if startswith (strip reply) (lit "SELECT") then
    Some (strip reply)
  else None.

(** The three shapes the dispatch of lines 215, 217 and 240 tells apart. *)
Inductive ParsedResult : Type :=
  | Explanation (raw : str)
  | Sql (sql : str)
  | Unrecognized (raw : str).

(** Lines 215-243, without the widgets: [if reply.strip().startswith(..)],
    [elif sql], [else]. *)
Definition parse (reply : str) : ParsedResult :=
  let sql := extract_sql reply in
  if startswith (strip reply) (lit "EXPLANATION:") then Explanation reply
  else match sql with
       | Some s => if truthy s then Sql s else Unrecognized reply
       | None => Unrecognized reply
       end.

End Parser.
Import Parser.

(** ** The outside world: exceptions, the completion service, DuckDB,
    Streamlit *)

(** A raised exception: whether its class derives from [Exception] (what
    [except Exception] catches; a bare [except] catches every one), and
    [str(e)]. *)
Record exn : Type := { is_Exception : bool; exn_str : str }.

Inductive result (A : Type) : Type :=
  | Ok (a : A)
  | Raise (e : exn).
Arguments Ok {A} a.
Arguments Raise {A} e.

Record message : Type := { role : str; content : str }.

(** A pandas data frame: the column labels, the rendered dtypes, the rows. *)
Record DataFrame (Cell : Type) : Type :=
  { columns : list str; dtypes : list str; rows : list (list Cell) }.
Arguments columns {Cell} d.
Arguments dtypes {Cell} d.
Arguments rows {Cell} d.

(** [df.head(n)] *)
Definition head {Cell : Type} (n : nat) (df : DataFrame Cell) : DataFrame Cell :=
  {| columns := columns df; dtypes := dtypes df; rows := firstn n (rows df) |}.

(** What the script takes from its libraries.  [create model messages] is
    [client.chat.completions.create(model=.., messages=..)] followed by
    [.choices[0].message.content]; [sql_fetchdf sql] is
    [duckdb.sql(sql).fetchdf()]; [register] is what [duckdb.register] does
    to the engine when it returns, and [register_error] is the exception
    it raises instead when it raises one (DuckDB refuses a frame without
    columns, for one); [lower] is [str.lower] and [to_csv] is
    [DataFrame.to_csv(index=False)]. *)
Class Externals : Type :=
  { Cell : Type;
    World : Type;
    lower : str -> str;
    to_csv : DataFrame Cell -> str;
    create : str -> list message -> World -> result str * World;
    register : str -> DataFrame Cell -> World -> World;
    register_error : str -> DataFrame Cell -> World -> option exn;
    sql_fetchdf : str -> World -> result (DataFrame Cell) * World }.

(** Streamlit calls of the analysis block. *)
Inductive widget {E : Externals} : Type :=
  | Spinner (text : str)
  | Subheader (text : str)
  | Info (text : str)
  | Code (body : str) (language : option str)
  | Dataframe (df : DataFrame Cell)
  | DownloadButton (label data file_name mime : str)
  | Error (text : str)
  | Warning (text : str).

(** What a run does to the outside, in order. *)
Inductive event {E : Externals} : Type :=
  | EvCreate (model : str) (messages : list message)
  | EvRegister (name : str) (df : DataFrame Cell)
  | EvSql (sql : str)
  | EvUi (w : widget).

(** ** Computations: a world, a result or a raised exception, a trace *)

Section Monad.
Context {E : Externals}.

Definition M (A : Type) : Type := World -> result A * World * list event.

Definition ret {A : Type} (a : A) : M A := fun w => (Ok a, w, []).

Definition raise {A : Type} (e : exn) : M A := fun w => (Raise e, w, []).

Definition bind {A B : Type} (c : M A) (k : A -> M B) : M B :=
  fun w =>
    match c w with
    | (Ok a, w1, t1) => let '(r, w2, t2) := k a w1 in (r, w2, t1 ++ t2)
    | (Raise e, w1, t1) => (Raise e, w1, t1)
    end.

(** [try: c / except Exception as e: h e] *)
Definition try_except_Exception {A : Type} (c : M A) (h : exn -> M A) : M A :=
  fun w =>
    match c w with
    | (Ok a, w1, t1) => (Ok a, w1, t1)
    | (Raise e, w1, t1) =>
        if is_Exception e
        then let '(r, w2, t2) := h e w1 in (r, w2, t1 ++ t2)
        else (Raise e, w1, t1)
    end.

(** [try: c / except: h] *)
Definition try_except {A : Type} (c : M A) (h : M A) : M A :=
  fun w =>
    match c w with
    | (Ok a, w1, t1) => (Ok a, w1, t1)
    | (Raise _, w1, t1) => let '(r, w2, t2) := h w1 in (r, w2, t1 ++ t2)
    end.

Definition st (w : widget) : M unit := fun wd => (Ok tt, wd, [EvUi w]).

Definition chat_completions_create (model : str) (messages : list message)
  : M str :=
  fun w => let '(r, w1) := create model messages w in
           (r, w1, [EvCreate model messages]).

(** [duckdb.register(name, df)] when it returns; [duckdb_register_call]
    below is the call with the exception it can raise. *)
Definition duckdb_register (name : str) (df : DataFrame Cell) : M unit :=
  fun w => (Ok tt, register name df w, [EvRegister name df]).

Definition duckdb_sql (sql : str) : M (DataFrame Cell) :=
  fun w => let '(r, w1) := sql_fetchdf sql w in (r, w1, [EvSql sql]).

End Monad.

Notation "x <- c ;; k" := (bind c (fun x => k))
  (at level 61, c at next level, right associativity).
Notation "c ;;; k" := (bind c (fun _ => k))
  (at level 61, right associativity).

(** ** The completion call with its fallback (lines 71-88) *)

Section ModelClient.
Context {E : Externals}.

Definition DEFAULT_MODEL : str := lit "openai/gpt-oss-120b".
Definition FALLBACK_MODEL : str :=
  lit "meta-llama/llama-4-scout-17b-16e-instruct".

(** The inner [try] of the handler either returns the fallback's content
    ([Some]) or falls through ([None]) to [raise e]; so does the handler
    when the model is not of the mixtral family. *)
Definition call_groq_model (system user_msg model : str) : M str :=
  let messages :=
    [ {| role := lit "system"; content := system |};
      {| role := lit "user"; content := user_msg |} ] in
  try_except_Exception
    (chat_completions_create model messages)
    (fun e =>
       returned <-
         (if contains (lit "mixtral") (lower model) then
            try_except
              (c <- chat_completions_create FALLBACK_MODEL messages ;;
               ret (Some c))
              (ret None)
          else ret None) ;;
       match returned with
       | Some c => ret c
       | None => raise e
       end).

End ModelClient.

(** ** The analysis block (lines 169-247) *)

Section Pipeline.
Context {E : Externals}.

(** Lines 174-182. *)
Definition system_prompt : str :=
  lit "You are an expert SQL analyst. Your task is to generate SQL queries for data analysis." ++ nl ++
  lit "Rules:" ++ nl ++
  lit "1) Always return a valid SQL query enclosed in ```sql``` fences" ++ nl ++
  lit "2) The table name is 'data_df'" ++ nl ++
  lit "3) If the question cannot be answered with SQL, provide an EXPLANATION: prefix instead" ++ nl ++
  lit "4) Never include markdown formatting in SQL blocks, just the pure SQL" ++ nl ++
  lit "5) Optimize for clarity and correctness" ++ nl.

(** Line 185. *)
Definition sample_of (df : DataFrame Cell) : str := to_csv (head 10 df).

(** Line 189: [f'{col}({dtype})' for col, dtype in zip(df.columns, df.dtypes)]. *)
Definition typed_columns (df : DataFrame Cell) : list str :=
  map (fun cd => fst cd ++ lit "(" ++ snd cd ++ lit ")")
      (combine (columns df) (dtypes df)).

(** Lines 186-193. *)
Definition user_msg (df : DataFrame Cell) (query : str) : str :=
  lit "Dataset Info:" ++ nl ++
  lit "Columns: " ++ join (lit ", ") (columns df) ++ nl ++
  lit "Data Types: " ++ join (lit ", ") (typed_columns df) ++ nl ++ nl ++
  lit "Sample Data:" ++ nl ++ sample_of df ++ nl ++ nl ++
  lit "User Question: " ++ query ++ nl ++ nl ++
  lit "Generate a SQL query or provide an explanation. Return in ```sql``` fences or start with EXPLANATION:".

(** The two pictographs of the messages: U+274C and U+1F4E5. *)
Definition cross_mark : str := [10060%N].
Definition inbox_tray : str := [128229%N].

(** Lines 220-239: the execution, under [if not sql_only]. *)
Definition execute (sql reply : str) : M unit :=
  try_except_Exception
    (res <- (st (Spinner (lit "Executing query...")) ;;; duckdb_sql sql) ;;
     st (Subheader (lit "Query Results")) ;;;
     st (Dataframe res) ;;;
     let csv_data := to_csv res in
     st (DownloadButton (inbox_tray ++ lit " Download Results as CSV")
                        csv_data (lit "query_results.csv") (lit "text/csv")))
    (fun e =>
       st (Error (cross_mark ++ lit " SQL Execution Error: " ++ exn_str e)) ;;;
       st (Info (lit "**Raw Response from AI:**")) ;;;
       st (Code reply None)).

(** Lines 199-243: what is shown for a reply. *)
Definition show_reply (reply : str) (sql_only : bool) : M unit :=
  st (Subheader (lit "Generated SQL Query")) ;;;
  match parse reply with
  | Explanation raw => st (Info raw)
  | Sql sql =>
      st (Code sql (Some (lit "sql"))) ;;;
      if negb sql_only then execute sql reply else ret tt
  | Unrecognized raw =>
      st (Warning (lit "Could not extract SQL from response")) ;;;
      st (Info (lit "**AI Response:**")) ;;;
      st (Code raw None)
  end.

(** Lines 169-247: [if query and run: ...]; [run] is the button.  This is
    the block on a frame that the engine accepts and whose labels are
    strings, so that the statements before the [try] (lines 171-193) go
    through; [analysis_block] below is the block with what these
    statements can raise, and agrees with this one where they do not. *)
Definition run_analysis (df : DataFrame Cell) (query : str)
    (sql_only run : bool) : M unit :=
  if truthy query && run then
    duckdb_register (lit "data_df") df ;;;
    try_except_Exception
      (reply <- (st (Spinner (lit "Generating SQL query...")) ;;;
                 call_groq_model system_prompt (user_msg df query)
                                 DEFAULT_MODEL) ;;
       show_reply reply sql_only)
      (fun e =>
         st (Error (cross_mark ++ lit " Error: " ++ exn_str e)) ;;;
         st (Info (lit "Make sure your GROQ_API_KEY is valid and the model is available.")))
  else ret tt.

End Pipeline.

(** ** The block with what its first statements can raise (lines 169-193)

    The registration (line 171) and the construction of the prompt (lines
    185-193) stand before the [try] of line 195: what they raise leaves
    the block. *)

(** The labels of a frame need not be strings: a spreadsheet with numbers
    in its header row gives integer labels.  [columns df] holds every
    label as [str] shows it, which is what the f-string of line 189 and
    [to_csv] go by; a [Labels] value tells whether the labels are all
    [str] instances, or else the position and the type name of the first
    one that is not, which is what [', '.join(..)] of line 188 raises on. *)
Inductive Labels : Type :=
  | AllStr
  | NotStr (position : nat) (type_name : str).

Definition decimal (n : nat) : str :=
  lit (DecimalString.NilEmpty.string_of_uint (Nat.to_uint n)).

(** The [TypeError] of [str.join] on an item that is not a [str]. *)
Definition join_type_error (position : nat) (type_name : str) : exn :=
  {| is_Exception := true;
     exn_str := lit "sequence item " ++ decimal position ++
                lit ": expected str instance, " ++ type_name ++ lit " found" |}.

Section Block.
Context {E : Externals}.

(** Line 171: [duckdb.register("data_df", df)], which registers the frame
    or raises and registers nothing. *)
Definition duckdb_register_call (name : str) (df : DataFrame Cell) : M unit :=
  fun w =>
    match register_error name df w with
    | Some e => (Raise e, w, [])
    | None => (Ok tt, register name df w, [EvRegister name df])
    end.

(** Line 188: [', '.join(df.columns.tolist())]. *)
Definition join_columns (labels : Labels) (df : DataFrame Cell) : M str :=
  match labels with
  | AllStr => ret (join (lit ", ") (columns df))
  | NotStr position type_name => raise (join_type_error position type_name)
  end.

(** Lines 185-193: the user message, or the exception of line 188. *)
Definition build_user_msg (labels : Labels) (df : DataFrame Cell)
    (query : str) : M str :=
  columns_text <- join_columns labels df ;;
  ret (lit "Dataset Info:" ++ nl ++
       lit "Columns: " ++ columns_text ++ nl ++
       lit "Data Types: " ++ join (lit ", ") (typed_columns df) ++ nl ++ nl ++
       lit "Sample Data:" ++ nl ++ sample_of df ++ nl ++ nl ++
       lit "User Question: " ++ query ++ nl ++ nl ++
       lit "Generate a SQL query or provide an explanation. Return in ```sql``` fences or start with EXPLANATION:").

(** Lines 173-247: the block behind the registration. *)
Definition after_registration (labels : Labels) (df : DataFrame Cell)
    (query : str) (sql_only : bool) : M unit :=
  user <- build_user_msg labels df query ;;
  try_except_Exception
    (reply <- (st (Spinner (lit "Generating SQL query...")) ;;;
               call_groq_model system_prompt user DEFAULT_MODEL) ;;
     show_reply reply sql_only)
    (fun e =>
       st (Error (cross_mark ++ lit " Error: " ++ exn_str e)) ;;;
       st (Info (lit "Make sure your GROQ_API_KEY is valid and the model is available."))).

(** Lines 169-247: [if query and run: ...]. *)
Definition analysis_block (labels : Labels) (df : DataFrame Cell)
    (query : str) (sql_only run : bool) : M unit :=
  if truthy query && run then
    duckdb_register_call (lit "data_df") df ;;;
    after_registration labels df query sql_only
  else ret tt.

End Block.

(** ** A scripted outside world, to run the block on

    The completion service answers from a script, one entry for each call,
    and fails when the script is used up; the engine knows one query and
    rejects every other one. *)

Module Demo.

Definition decommissioned : exn :=
  {| is_Exception := true; exn_str := lit "model_decommissioned" |}.

Definition rate_limited : exn :=
  {| is_Exception := true; exn_str := lit "rate_limit_exceeded" |}.

Definition parser_error : exn :=
  {| is_Exception := true;
     exn_str := lit "Parser Error: syntax error at or near SELEKT" |}.

Definition no_columns : exn :=
  {| is_Exception := true;
     exn_str := lit "Invalid Input Error: Need a DataFrame with at least one column" |}.

Definition count_result : DataFrame str :=
  {| columns := [lit "count_star()"]; dtypes := [lit "int64"];
     rows := [[lit "12"]] |}.

Definition csv (df : DataFrame str) : str :=
  join nl (join (lit ",") (columns df) :: map (join (lit ",")) (rows df))
  ++ nl.

Definition externals : Externals :=
  {| Cell := str;
     World := list (result str);
     lower := ascii_lower;
     to_csv := csv;
     create := fun _ _ w =>
       match w with
       | [] => (Raise decommissioned, [])
       | r :: w' => (r, w')
       end;
     register := fun _ _ w => w;
     register_error := fun _ df _ =>
       match columns df with
       | [] => Some no_columns
       | _ :: _ => None
       end;
     sql_fetchdf := fun sql w =>
       if eqb sql (lit "SELECT COUNT(*) FROM data_df")
       then (Ok count_result, w)
       else (Raise parser_error, w) |}.

(** A world that keeps what is registered: the script of the service and
    the relations of the engine, which answers the one query it knows
    only when [data_df] is registered. *)
Definition recording : Externals :=
  {| Cell := str;
     World := list (result str) * list (str * DataFrame str);
     lower := ascii_lower;
     to_csv := csv;
     create := fun _ _ w =>
       match fst w with
       | [] => (Raise decommissioned, w)
       | r :: script => (r, (script, snd w))
       end;
     register := fun name df w => (fst w, (name, df) :: snd w);
     register_error := fun _ df _ =>
       match columns df with
       | [] => Some no_columns
       | _ :: _ => None
       end;
     sql_fetchdf := fun sql w =>
       if existsb (fun r => eqb (fst r) (lit "data_df")) (snd w)
          && eqb sql (lit "SELECT COUNT(*) FROM data_df")
       then (Ok count_result, w)
       else (Raise parser_error, w) |}.

(** A frame without columns. *)
Definition empty_frame : DataFrame str :=
  {| columns := []; dtypes := []; rows := [] |}.

(** Twelve rows of name and salary. *)
Definition salaries : DataFrame str :=
  {| columns := [lit "name"; lit "salary"];
     dtypes := [lit "object"; lit "float64"];
     rows := map (fun n => [lit "ann"; lit "10.5"]) (seq 0 12) |}.

(** The same columns, other rows behind the tenth. *)
Definition salaries' : DataFrame str :=
  {| columns := [lit "name"; lit "salary"];
     dtypes := [lit "object"; lit "float64"];
     rows := map (fun n => [lit "ann"; lit "10.5"]) (seq 0 10)
             ++ [[lit "bob"; lit "7.0"]] |}.

Definition question : str := lit "how many rows are there?".

Definition messages : list message :=
  [ {| role := lit "system"; content := system_prompt |};
    {| role := lit "user"; content := @user_msg externals salaries question |} ].

End Demo.

(** ** The API key: [_get_env_key] and the side bar (lines 15-66) *)

Module PyText.

(** The line boundaries of [str.splitlines]: LF, VT, FF, CR, FS, GS, RS,
    NEL, LS and PS. *)
Definition is_linebreak (c : char) : bool :=
  let n := Z.of_N c in
  ((10 <=? n) && (n <=? 13)) || ((28 <=? n) && (n <=? 30))
  || (n =? 133) || (n =? 8232) || (n =? 8233).

(** [s.splitlines()]: the lines without their ends; CR LF is one end, and a
    text that ends with a line end has no empty last line. *)
Fixpoint splitlines (s : str) : list str :=
  match s with
  | [] => []
  | c :: s' =>
      if is_linebreak c then
        [] :: (if N.eqb c 13
               then match s' with
                    | d :: s'' => if N.eqb d 10 then splitlines s''
                                  else splitlines s'
                    | [] => splitlines s'
                    end
               else splitlines s')
      else match splitlines s' with
           | [] => [[c]]
           | l :: ls => (c :: l) :: ls
           end
  end.

(** [s.split(sep, 1)] for a separator of one character. *)
Fixpoint split1 (sep : char) (s : str) : list str :=
  match s with
  | [] => [[]]
  | c :: s' =>
      if N.eqb c sep then [[]; s']
      else match split1 sep s' with
           | l :: ls => (c :: l) :: ls
           | [] => [[c]]
           end
  end.

(** [s.endswith(suffix)] *)
Definition endswith (s suffix : str) : bool :=
  (length suffix <=? length s)%nat
  && eqb (skipn (length s - length suffix) s) suffix.

(** A [dict] from strings to strings: the items in insertion order. *)
Definition dict : Type := list (str * str).

(** [d[k] = v]: a key that is there keeps its place. *)
Fixpoint dict_set (d : dict) (k v : str) : dict :=
  match d with
  | [] => [(k, v)]
  | (k', v') :: d' =>
      if eqb k' k then (k', v) :: d' else (k', v') :: dict_set d' k v
  end.

(** [d.get(k)] *)
Fixpoint dict_get (d : dict) (k : str) : option str :=
  match d with
  | [] => None
  | (k', v') :: d' => if eqb k' k then Some v' else dict_get d' k
  end.

End PyText.
Import PyText.

Module Keys.

(** Truth value of [None] or a string. *)
Definition truthy_opt (o : option str) : bool :=
  match o with Some s => truthy s | None => false end.

(** Lines 15-26.  [session_get] is what [st.session_state.get(name)] does,
    [getenv] is [os.getenv(name)].  [val or os.getenv(name)] is [val] when
    [val] is true. *)
Definition _get_env_key (session_get : result (option str))
    (getenv : option str) : result (option str) :=
  match session_get with
  | Ok val => Ok (if truthy_opt val then val else getenv)
  | Raise e =>
      if is_Exception e then Ok (if truthy_opt None then None else getenv)
      else Raise e
  end.

(** Lines 61-66: [if not GROQ_API_KEY: st.error(..); st.stop()]. *)
Definition stops_without_key (key : option str) : bool :=
  negb (truthy_opt key).

Definition GROQ_API_KEY : str := lit "GROQ_API_KEY".

(** The unpacking [k, v = ..] of a list that has not two items. *)
Definition unpack_error : exn :=
  {| is_Exception := true;
     exn_str := lit "not enough values to unpack (expected 2, got 1)" |}.

(** Lines 44-47, one line of the file. *)
Definition read_line (env_values : dict) (line : str) : result dict :=
  if contains (lit "=") line then
    match split1 61%N line with
    | [k; v] => Ok (dict_set env_values k v)
    | _ => Raise unpack_error
    end
  else Ok env_values.

Fixpoint read_lines (lines : list str) (env_values : dict) : result dict :=
  match lines with
  | [] => Ok env_values
  | line :: rest =>
      match read_line env_values line with
      | Ok env_values' => read_lines rest env_values'
      | Raise e => Raise e
      end
  end.

(** Lines 42-47 on the text of the file. *)
Definition read_env (text : str) : result dict :=
  read_lines (splitlines text) [].

(** Line 53: one item as [f"{k}={v}"], and the text written. *)
Definition item_line (kv : str * str) : str := fst kv ++ lit "=" ++ snd kv.

Definition render_env (env_values : dict) : str :=
  join nl (map item_line env_values).

(** The file [.env] as the handler meets it: whether it exists, what
    reading it gives, what writing a text gives. *)
Record Disk : Type :=
  { disk_exists : bool;
    disk_read : result str;
    disk_write : str -> result unit }.

(** Lines 41-53, the body of the [try]: the text written. *)
Definition save_env_file (groq_input : str) (d : Disk) : result str :=
  match (if disk_exists d
         then match disk_read d with
              | Ok text => read_env text
              | Raise e => Raise e
              end
         else Ok []) with
  | Raise e => Raise e
  | Ok env_values =>
      let env_values :=
        if truthy groq_input
        then dict_set env_values GROQ_API_KEY groq_input
        else env_values in
      let text := render_env env_values in
      match disk_write d text with
      | Ok _ => Ok text
      | Raise e => Raise e
      end
  end.

(** What the side bar keeps: [st.session_state["GROQ_API_KEY"]] and
    [os.environ["GROQ_API_KEY"]]. *)
Record KeyState : Type :=
  { session_key : option str; environ_key : option str }.

Inductive notice : Type :=
  | NoticeSuccess (text : str)
  | NoticeError (text : str).

(** What the handler of the button leaves: the state, the text written to
    the file if one was, the notices shown, and an exception that no
    handler caught. *)
Record Applied : Type :=
  { applied_state : KeyState;
    applied_written : option str;
    applied_notices : list notice;
    applied_raised : option exn }.

(** Lines 34-56: [if st.button("Apply keys"): ...].  [setenv] is what the
    assignment [os.environ["GROQ_API_KEY"] = groq_input] does; it stands
    outside the [try], so that an exception of it leaves the handler. *)
Definition apply_keys (groq_input : str) (save_env : bool)
    (setenv : result unit) (d : Disk) (s : KeyState) : Applied :=
  let save (s1 : KeyState) : Applied :=
    if save_env then
      match save_env_file groq_input d with
      | Ok text =>
          {| applied_state := s1; applied_written := Some text;
             applied_notices :=
               [NoticeSuccess (lit "Saved keys to .env (local file)")];
             applied_raised := None |}
      | Raise e =>
          if is_Exception e
          then {| applied_state := s1; applied_written := None;
                  applied_notices :=
                    [NoticeError (lit "Failed to write .env: " ++ exn_str e)];
                  applied_raised := None |}
          else {| applied_state := s1; applied_written := None;
                  applied_notices := []; applied_raised := Some e |}
      end
    else {| applied_state := s1; applied_written := None;
            applied_notices := []; applied_raised := None |} in
  if truthy groq_input then
    match setenv with
    | Ok _ =>
        save {| session_key := Some groq_input;
                environ_key := Some groq_input |}
    | Raise e =>
        {| applied_state := {| session_key := Some groq_input;
                               environ_key := environ_key s |};
           applied_written := None; applied_notices := [];
           applied_raised := Some e |}
    end
  else save s.

(** A string without any line boundary. *)
Definition single_line (s : str) : bool :=
  forallb (fun c => negb (is_linebreak c)) s.

(** The dictionaries that a file of [key=value] lines stands for: no key
    twice, no [=] in a key, no line boundary in a key or a value. *)
Definition env_ok (env_values : dict) : Prop :=
  NoDup (map fst env_values) /\
  Forall (fun kv => ~ In 61%N (fst kv) /\ single_line (fst kv) = true /\
                    single_line (snd kv) = true) env_values.

(** [_get_env_key("GROQ_API_KEY")] on the state the side bar keeps. *)
Definition current_key (s : KeyState) : result (option str) :=
  _get_env_key (Ok (session_key s)) (environ_key s).

End Keys.
Import Keys.

(** ** The upload (lines 106-114) *)

Inductive reader : Type := ReadCsv | ReadExcel.

(** Lines 111-114: [pd.read_csv] for a name that ends with [.csv],
    [pd.read_excel] for any other. *)
Definition reader_for (name : str) : reader :=
  if endswith name (lit ".csv") then ReadCsv else ReadExcel.

(** ** A key file to run the handler on *)

Module DemoKeys.

Definition old_text : str :=
  lit "# local settings" ++ nl ++ lit "DEBUG=1" ++ nl ++
  lit "GROQ_API_KEY=old" ++ nl.

Definition new_text : str :=
  lit "DEBUG=1" ++ nl ++ lit "GROQ_API_KEY=gsk_123".

Definition permission_denied : exn :=
  {| is_Exception := true; exn_str := lit "[Errno 13] Permission denied" |}.

Definition disk : Disk :=
  {| disk_exists := true; disk_read := Ok old_text;
     disk_write := fun _ => Ok tt |}.

Definition disk_after : Disk :=
  {| disk_exists := true; disk_read := Ok new_text;
     disk_write := fun _ => Ok tt |}.

Definition unreadable : Disk :=
  {| disk_exists := true; disk_read := Raise permission_denied;
     disk_write := fun _ => Ok tt |}.

Definition no_key : KeyState :=
  {| session_key := None; environ_key := None |}.

End DemoKeys.

(** * Properties *)

(** ** Strings *)

(** The string operations on the values Python gives. *)
Example find_from_start :
  find (lit "```") (lit "ab```cd```") 3 = 7 /\
  find (lit "```") (lit "ab```cd```") 8 = -1 /\
  find [] (lit "abc") 3 = 3 /\ find [] (lit "abc") 4 = -1.
Proof. repeat split. Qed.

Example strip_both_ends :
  strip ([9; 32; 160]%N ++ lit "a b" ++ [10; 13; 8195]%N) = lit "a b".
Proof. reflexivity. Qed.

Example slice_clamps :
  slice (lit "abcdef") 2 (-1) = lit "cde" /\
  slice (lit "abcdef") 4 99 = lit "ef" /\
  slice_from (lit "abcdef") 7 = [].
Proof. repeat split. Qed.

Example join_three :
  join (lit ", ") [lit "id"; lit "amount"; lit "day"] = lit "id, amount, day".
Proof. reflexivity. Qed.

Section StringFacts.

Lemma len_app (a b : str) : len (a ++ b) = len a + len b.
Proof. unfold len. rewrite length_app. lia. Qed.

Lemma len_nonneg (s : str) : 0 <= len s.
Proof. unfold len. lia. Qed.

Lemma startswith_app (p r : str) : startswith (p ++ r) p = true.
Proof.
  induction p as [|c p IH]; simpl; [reflexivity|].
  now rewrite N.eqb_refl.
Qed.

Lemma startswith_split (p s : str) :
  startswith s p = true -> exists r, s = p ++ r.
Proof.
  revert s. induction p as [|c p IH]; intros s H.
  - now exists s.
  - destruct s as [|d s]; simpl in H; [discriminate|].
    apply andb_true_iff in H as [Hc Hs].
    apply N.eqb_eq in Hc. subst d.
    destruct (IH _ Hs) as [r ->]. now exists r.
Qed.

Lemma find_aux_range (sub s : str) (pos : Z) :
  find_aux sub s pos = -1 \/ pos <= find_aux sub s pos <= pos + len s.
Proof.
  revert pos. induction s as [|c s IH]; intros pos; simpl.
  - destruct (startswith [] sub); [right|left]; unfold len; simpl; lia.
  - destruct (startswith (c :: s) sub).
    + right. pose proof (len_nonneg (c :: s)). lia.
    + destruct (IH (pos + 1)) as [H|H]; [now left|right].
      unfold len in *. simpl length. lia.
Qed.

(** The scan does not depend on where it starts counting. *)
Lemma find_aux_shift (sub s : str) (pos : Z) :
  find_aux sub s pos =
  if find_aux sub s 0 =? -1 then -1 else pos + find_aux sub s 0.
Proof.
  revert pos. induction s as [|c s IH]; intros pos; simpl.
  - destruct (startswith [] sub); simpl; lia.
  - destruct (startswith (c :: s) sub); simpl; [lia|].
    rewrite (IH (pos + 1)), (IH 1).
    destruct (find_aux_range sub s 0) as [H|H].
    + rewrite H. reflexivity.
    + destruct (find_aux sub s 0 =? -1) eqn:E0; [lia|].
      destruct (1 + find_aux sub s 0 =? -1) eqn:E1; lia.
Qed.

Lemma find_0 (sub s : str) : find sub s 0 = find_aux sub s 0.
Proof.
  unfold find, clamp. pose proof (len_nonneg s).
  destruct (len s <? 0) eqn:E; [lia|].
  simpl. rewrite Z.min_l by lia. reflexivity.
Qed.

Lemma skipn_len_app (a b : str) : skipn (Z.to_nat (len a)) (a ++ b) = b.
Proof.
  unfold len. rewrite Nat2Z.id.
  rewrite skipn_app, skipn_all, Nat.sub_diag. reflexivity.
Qed.

Lemma clamp_inside (s : str) (i : Z) : 0 <= i <= len s -> clamp s i = i.
Proof.
  intros H. unfold clamp. destruct (i <? 0) eqn:E; lia.
Qed.

(** Searching from just behind [p ++ o] is searching in what follows. *)
Lemma find_after (sub p o rest : str) :
  find sub (p ++ o ++ rest) (len p + len o) =
  if find sub rest 0 =? -1 then -1 else len p + len o + find sub rest 0.
Proof.
  pose proof (len_nonneg p). pose proof (len_nonneg o).
  pose proof (len_nonneg rest).
  unfold find at 1.
  replace (p ++ o ++ rest) with ((p ++ o) ++ rest) by now rewrite app_assoc.
  assert (Hl : len ((p ++ o) ++ rest) = len p + len o + len rest)
    by (rewrite !len_app; lia).
  destruct (len ((p ++ o) ++ rest) <? len p + len o) eqn:E; [lia|].
  rewrite clamp_inside by lia.
  replace (len p + len o) with (len (p ++ o)) by apply len_app.
  rewrite skipn_len_app, find_0.
  apply find_aux_shift.
Qed.

Lemma slice_after (p o body rest : str) :
  slice (p ++ o ++ body ++ rest) (len p + len o)
        (len p + len o + len body) = body.
Proof.
  pose proof (len_nonneg p). pose proof (len_nonneg o).
  pose proof (len_nonneg body). pose proof (len_nonneg rest).
  unfold slice.
  replace (p ++ o ++ body ++ rest) with ((p ++ o) ++ body ++ rest)
    by now rewrite <- app_assoc.
  assert (Hl : len ((p ++ o) ++ body ++ rest)
               = len p + len o + len body + len rest)
    by (rewrite !len_app; lia).
  rewrite !clamp_inside by lia.
  replace (len p + len o + len body - (len p + len o)) with (len body) by lia.
  replace (len p + len o) with (len (p ++ o)) by apply len_app.
  rewrite skipn_len_app.
  unfold len. rewrite Nat2Z.id.
  rewrite firstn_app, firstn_all, Nat.sub_diag. simpl.
  apply app_nil_r.
Qed.

Lemma slice_from_after (p o rest : str) :
  slice_from (p ++ o ++ rest) (len p + len o) = rest.
Proof.
  pose proof (len_nonneg p). pose proof (len_nonneg o).
  pose proof (len_nonneg rest).
  unfold slice_from.
  replace (p ++ o ++ rest) with ((p ++ o) ++ rest) by now rewrite <- app_assoc.
  rewrite clamp_inside by (rewrite !len_app; lia).
  replace (len p + len o) with (len (p ++ o)) by apply len_app.
  apply skipn_len_app.
Qed.

End StringFacts.

Section ContainsFacts.

Lemma find_aux_app_found (m p r : str) (pos : Z) :
  0 <= pos -> find_aux m (p ++ m ++ r) pos <> -1.
Proof.
  revert pos. induction p as [|c p IH]; intros pos Hpos.
  - simpl app. destruct (m ++ r) as [|d s] eqn:Es.
    + simpl. rewrite <- Es, startswith_app. lia.
    + simpl. rewrite <- Es, startswith_app. lia.
  - simpl. destruct (startswith (c :: p ++ m ++ r) m); [lia|].
    apply IH. lia.
Qed.

Lemma contains_intro (m p r : str) : contains m (p ++ m ++ r) = true.
Proof.
  unfold contains. rewrite find_0.
  pose proof (find_aux_app_found m p r 0 ltac:(lia)) as H.
  apply negb_true_iff, Z.eqb_neq. exact H.
Qed.

Lemma find_aux_split (m s : str) (pos : Z) :
  find_aux m s pos <> -1 -> exists p r, s = p ++ m ++ r.
Proof.
  revert pos. induction s as [|c s IH]; intros pos H; simpl in H.
  - destruct (startswith [] m) eqn:E; [|congruence].
    destruct (startswith_split _ _ E) as [r Hr]. now exists [], r.
  - destruct (startswith (c :: s) m) eqn:E.
    + destruct (startswith_split _ _ E) as [r Hr]. now exists [], r.
    + destruct (IH _ H) as (p & r & ->). now exists (c :: p), r.
Qed.

Lemma contains_split (m s : str) :
  contains m s = true -> exists p r, s = p ++ m ++ r.
Proof.
  unfold contains. rewrite find_0. intros H.
  apply negb_true_iff, Z.eqb_neq in H.
  exact (find_aux_split _ _ _ H).
Qed.

(** Stripping on the left keeps an occurrence that starts with a character
    that is not white space. *)
Lemma lstrip_keeps (m p r : str) :
  match m with c :: _ => isspace c = false | [] => False end ->
  exists p', lstrip (p ++ m ++ r) = p' ++ m ++ r.
Proof.
  intros Hm. destruct m as [|c m]; [contradiction|].
  induction p as [|d p IH].
  - exists []. simpl. now rewrite Hm.
  - simpl. destruct (isspace d).
    + exact IH.
    + now exists (d :: p).
Qed.

Lemma lstrip_spaces (s : str) : forallb isspace s = true -> lstrip s = [].
Proof.
  induction s as [|c s IH]; simpl; [reflexivity|].
  intros H. apply andb_true_iff in H as [Hc Hs].
  rewrite Hc. auto.
Qed.

Lemma strip_spaces (s : str) : forallb isspace s = true -> strip s = [].
Proof.
  intros H. unfold strip. now rewrite (lstrip_spaces _ H).
Qed.

Lemma truthy_cons_app (p m r : str) : m <> [] -> truthy (p ++ m ++ r) = true.
Proof.
  intros Hm. destruct p; [|reflexivity].
  destruct m; [congruence|reflexivity].
Qed.

(** Stripping keeps an occurrence of a string whose first and last
    characters are not white space. *)
Lemma strip_keeps (m s : str) :
  match m with c :: _ => isspace c = false | [] => False end ->
  match rev m with c :: _ => isspace c = false | [] => False end ->
  contains m s = true ->
  exists p r, strip s = p ++ m ++ r.
Proof.
  intros Hfirst Hlast H. destruct (contains_split _ _ H) as (p & r & ->).
  unfold strip, rstrip.
  destruct (lstrip_keeps m p r Hfirst) as [p' ->].
  rewrite !rev_app_distr, <- app_assoc.
  destruct (lstrip_keeps (rev m) (rev r) (rev p') Hlast) as [r' ->].
  rewrite !rev_app_distr, <- app_assoc, !rev_involutive.
  now exists p', (rev r').
Qed.

Lemma strip_keeps_marker (s : str) :
  contains (lit "EXPLANATION:") s = true ->
  exists p r, strip s = p ++ lit "EXPLANATION:" ++ r.
Proof. apply strip_keeps; reflexivity. Qed.

End ContainsFacts.

(** ** The parse step *)

Section ParserFacts.

(** The slice taken after a fence opener [o] (lines 205-207 and 209-211)
    when the opener found is followed by [body] and then the first closing
    fence. *)
Lemma fence_closed (o p body suffix : str) :
  let reply := p ++ o ++ body ++ lit "```" ++ suffix in
  find o reply 0 = len p ->
  find (lit "```") (body ++ lit "```" ++ suffix) 0 = len body ->
  let start := find o reply 0 + len o in
  let end_ := find (lit "```") reply start in
  (if negb (end_ =? -1) then strip (slice reply start end_)
   else strip (slice_from reply start)) = strip body.
Proof.
  intros reply H1 H2 start end_.
  assert (Hstart : start = len p + len o) by (unfold start; now rewrite H1).
  assert (Hend : end_ = len p + len o + len body).
  { unfold end_. rewrite Hstart. unfold reply.
    rewrite find_after, H2. pose proof (len_nonneg body).
    destruct (len body =? -1) eqn:E; lia. }
  pose proof (len_nonneg p). pose proof (len_nonneg o).
  pose proof (len_nonneg body).
  destruct (end_ =? -1) eqn:E; [lia|]. simpl.
  rewrite Hstart, Hend. unfold reply. now rewrite slice_after.
Qed.

(** The same when no closing fence follows the opener found. *)
Lemma fence_open (o p rest : str) :
  let reply := p ++ o ++ rest in
  find o reply 0 = len p ->
  contains (lit "```") rest = false ->
  let start := find o reply 0 + len o in
  let end_ := find (lit "```") reply start in
  (if negb (end_ =? -1) then strip (slice reply start end_)
   else strip (slice_from reply start)) = strip rest.
Proof.
  intros reply H1 H2 start end_.
  assert (Hstart : start = len p + len o) by (unfold start; now rewrite H1).
  assert (Hend : end_ = -1).
  { unfold end_. rewrite Hstart. unfold reply. rewrite find_after.
    unfold contains in H2. apply negb_false_iff in H2. now rewrite H2. }
  rewrite Hend. simpl. rewrite Hstart. unfold reply.
  now rewrite slice_from_after.
Qed.

Lemma found_contains (o s : str) (n : Z) :
  0 <= n -> find o s 0 = n -> contains o s = true.
Proof.
  intros Hn H. unfold contains. rewrite H.
  apply negb_true_iff, Z.eqb_neq. lia.
Qed.

Lemma extract_sql_lower_closed (p body suffix : str) :
  let reply := p ++ lit "```sql" ++ body ++ lit "```" ++ suffix in
  find (lit "```sql") reply 0 = len p ->
  find (lit "```") (body ++ lit "```" ++ suffix) 0 = len body ->
  extract_sql reply = Some (strip body).
Proof.
  intros reply H1 H2. unfold extract_sql.
  rewrite (found_contains _ _ _ (len_nonneg p) H1).
  f_equal. exact (fence_closed (lit "```sql") p body suffix H1 H2).
Qed.

Lemma extract_sql_upper_closed (p body suffix : str) :
  let reply := p ++ lit "```SQL" ++ body ++ lit "```" ++ suffix in
  contains (lit "```sql") reply = false ->
  find (lit "```SQL") reply 0 = len p ->
  find (lit "```") (body ++ lit "```" ++ suffix) 0 = len body ->
  extract_sql reply = Some (strip body).
Proof.
  intros reply H0 H1 H2. unfold extract_sql. rewrite H0.
  rewrite (found_contains _ _ _ (len_nonneg p) H1).
  f_equal. exact (fence_closed (lit "```SQL") p body suffix H1 H2).
Qed.

Lemma extract_sql_lower_open (p rest : str) :
  let reply := p ++ lit "```sql" ++ rest in
  find (lit "```sql") reply 0 = len p ->
  contains (lit "```") rest = false ->
  extract_sql reply = Some (strip rest).
Proof.
  intros reply H1 H2. unfold extract_sql.
  rewrite (found_contains _ _ _ (len_nonneg p) H1).
  f_equal. exact (fence_open (lit "```sql") p rest H1 H2).
Qed.

Lemma parse_not_explanation (reply : str) :
  startswith (strip reply) (lit "EXPLANATION:") = false ->
  parse reply = match extract_sql reply with
                | Some s => if truthy s then Sql s else Unrecognized reply
                | None => Unrecognized reply
                end.
Proof. intros H. unfold parse. now rewrite H. Qed.

Lemma truthy_true (s : str) : s <> [] -> truthy s = true.
Proof. destruct s; [congruence|reflexivity]. Qed.

End ParserFacts.

Section FenceFacts.

(** A string that starts with [c] is first found right behind a text that
    holds no [c]. *)
Lemma find_behind (c : char) (o p rest : str) :
  ~ In c p ->
  find (c :: o) (p ++ (c :: o) ++ rest) 0 = len p.
Proof.
  rewrite find_0. induction p as [|d p IH]; intros Hp.
  - cbn [app]. unfold find_aux.
    change (startswith (c :: o ++ rest) (c :: o))
      with (startswith ((c :: o) ++ rest) (c :: o)).
    now rewrite startswith_app.
  - assert (Hne : N.eqb c d = false).
    { apply N.eqb_neq. intros ->. apply Hp. now left. }
    change (find_aux (c :: o) ((d :: p) ++ (c :: o) ++ rest) 0)
      with (if N.eqb c d && startswith (p ++ (c :: o) ++ rest) o
            then 0
            else find_aux (c :: o) (p ++ (c :: o) ++ rest) (0 + 1)).
    rewrite Hne. cbn [andb].
    rewrite find_aux_shift, IH by (intros H; apply Hp; now right).
    pose proof (len_nonneg p).
    destruct (len p =? -1) eqn:E; [lia|].
    unfold len. cbn [length]. lia.
Qed.

(** White space holds no backquote, so the first closing fence behind a
    blank body is the one right after it. *)
Lemma find_fence_after_spaces (body suffix : str) :
  forallb isspace body = true ->
  find (lit "```") (body ++ lit "```" ++ suffix) 0 = len body.
Proof.
  intros H. apply (find_behind 96%N (lit "``")).
  intros Hin. rewrite forallb_forall in H.
  specialize (H _ Hin). discriminate H.
Qed.

Lemma parse_sql_truthy (raw s : str) : parse raw = Sql s -> truthy s = true.
Proof.
  unfold parse.
  destruct (startswith (strip raw) (lit "EXPLANATION:")); [discriminate|].
  destruct (extract_sql raw) as [s'|]; [|discriminate].
  destruct (truthy s') eqn:E; [|discriminate].
  intros H. injection H as <-. exact E.
Qed.

(** A reply with one fenced block and no other backquote: the usual shape
    of what the model sends. *)
Lemma parse_single_fence (prefix body suffix : str) :
  let raw := prefix ++ lit "```sql" ++ body ++ lit "```" ++ suffix in
  ~ In 96%N prefix ->
  ~ In 96%N body ->
  strip body <> [] ->
  startswith (strip raw) (lit "EXPLANATION:") = false ->
  parse raw = Sql (strip body).
Proof.
  intros raw Hp Hb Hs Hm.
  rewrite (parse_not_explanation _ Hm). unfold raw.
  rewrite (extract_sql_lower_closed prefix body suffix).
  - now rewrite (truthy_true _ Hs).
  - exact (find_behind 96%N (lit "``sql") prefix _ Hp).
  - exact (find_behind 96%N (lit "``") body suffix Hb).
Qed.

End FenceFacts.

(** ** The claims about the parse step *)

(** C1.  A reply whose trimmed text starts with [EXPLANATION:] is an
    explanation carrying the reply as it came, whatever else it holds: the
    test of line 215 is made before the extracted SQL is looked at. *)
Theorem parse_explanation_marker_first (raw : str) :
  startswith (strip raw) (lit "EXPLANATION:") = true ->
  parse raw = Explanation raw /\ (forall s, parse raw <> Sql s).
Proof.
  intros H. unfold parse. rewrite H. split; [reflexivity|discriminate].
Qed.

Lemma parse_explanation_marker_first_witness :
  let raw := lit "  EXPLANATION: no date column. ```sql SELECT 1```" in
  contains (lit "```sql") raw = true /\
  parse raw = Explanation raw /\ (forall s, parse raw <> Sql s).
Proof.
  split; [reflexivity|].
  apply (parse_explanation_marker_first
           (lit "  EXPLANATION: no date column. ```sql SELECT 1```")).
  reflexivity.
Defined.

(** C2, as stated, fails: the fence taken is the first one, its end is the
    first closing fence, and a blank body is no SQL.  Three replies of the
    form prefix + opener + body + closing fence + suffix, none starting
    with the marker, that do not parse as the trimmed body. *)
Lemma parse_fenced_any_context_counterexample :
  (let prefix := lit "```sql a``` " in
   let body := lit "b" in
   let raw := prefix ++ lit "```sql" ++ body ++ lit "```" ++ [] in
   startswith (strip raw) (lit "EXPLANATION:") = false /\
   parse raw = Sql (lit "a") /\ parse raw <> Sql (strip body)) /\
  (let body := lit "a```b" in
   let raw := [] ++ lit "```sql" ++ body ++ lit "```" ++ [] in
   startswith (strip raw) (lit "EXPLANATION:") = false /\
   parse raw = Sql (lit "a") /\ parse raw <> Sql (strip body)) /\
  (let body := lit " " in
   let raw := [] ++ lit "```sql" ++ body ++ lit "```" ++ [] in
   startswith (strip raw) (lit "EXPLANATION:") = false /\
   parse raw = Unrecognized raw /\ parse raw <> Sql (strip body)).
Proof.
  repeat split; try reflexivity; vm_compute; discriminate.
Qed.

(** C2, amended.  When the opener behind [prefix] is the first [```sql] of
    the reply, the fence behind [body] is the first [```] after it, the body
    is not blank and the trimmed reply does not start with the marker, the
    reply parses as the trimmed body. *)
Theorem parse_fenced_first_block (prefix body suffix : str) :
  let raw := prefix ++ lit "```sql" ++ body ++ lit "```" ++ suffix in
  startswith (strip raw) (lit "EXPLANATION:") = false ->
  find (lit "```sql") raw 0 = len prefix ->
  find (lit "```") (body ++ lit "```" ++ suffix) 0 = len body ->
  strip body <> [] ->
  parse raw = Sql (strip body).
Proof.
  intros raw Hm H1 H2 Hb.
  rewrite (parse_not_explanation _ Hm).
  unfold raw. rewrite (extract_sql_lower_closed prefix body suffix H1 H2).
  now rewrite (truthy_true _ Hb).
Qed.

Lemma parse_fenced_first_block_witness :
  parse (lit "Here you go:" ++ lit "```sql" ++
         lit " SELECT AVG(salary) FROM data_df " ++ lit "```" ++
         lit " Hope it helps.")
  = Sql (lit "SELECT AVG(salary) FROM data_df").
Proof.
  apply (parse_fenced_first_block (lit "Here you go:")
           (lit " SELECT AVG(salary) FROM data_df ") (lit " Hope it helps."));
    [reflexivity | reflexivity | reflexivity | discriminate].
Defined.

(** C5, as stated, fails on two replies with an opener and no closing
    fence: one where nothing but the opener is there, which is not
    recognised, and one that starts with the marker, which is an
    explanation. *)
Lemma parse_unclosed_fence_counterexample :
  (let raw := [] ++ lit "```sql" ++ [] in
   contains (lit "```sql") raw = true /\
   find (lit "```") raw (find (lit "```sql") raw 0 + len (lit "```sql")) = -1 /\
   parse raw = Unrecognized raw /\ parse raw <> Sql (strip [])) /\
  (let rest := lit " SELECT 1" in
   let raw := lit "EXPLANATION: try " ++ lit "```sql" ++ rest in
   contains (lit "```sql") raw = true /\
   find (lit "```") raw (find (lit "```sql") raw 0 + len (lit "```sql")) = -1 /\
   parse raw = Explanation raw /\ parse raw <> Sql (strip rest)).
Proof.
  repeat split; try reflexivity; vm_compute; discriminate.
Qed.

(** C5, amended.  When the first [```sql] of the reply has no [```] after
    it, the trimmed reply does not start with the marker and what follows
    the opener is not blank, the reply parses as everything after the
    opener, trimmed. *)
Theorem parse_unclosed_fence (prefix rest : str) :
  let raw := prefix ++ lit "```sql" ++ rest in
  find (lit "```sql") raw 0 = len prefix ->
  contains (lit "```") rest = false ->
  startswith (strip raw) (lit "EXPLANATION:") = false ->
  strip rest <> [] ->
  parse raw = Sql (strip rest).
Proof.
  intros raw H1 H2 Hm Hr.
  rewrite (parse_not_explanation _ Hm).
  unfold raw. rewrite (extract_sql_lower_open prefix rest H1 H2).
  now rewrite (truthy_true _ Hr).
Qed.

Lemma parse_unclosed_fence_witness :
  parse (lit "Sure: " ++ lit "```sql" ++ lit " SELECT COUNT(*) FROM data_df ")
  = Sql (lit "SELECT COUNT(*) FROM data_df").
Proof.
  apply (parse_unclosed_fence (lit "Sure: ")
           (lit " SELECT COUNT(*) FROM data_df "));
    [reflexivity | reflexivity | reflexivity | discriminate].
Defined.

(** C6.  A reply that does not start with the marker and holds neither
    fence opener parses as its whole trimmed text exactly when that text
    starts with [SELECT], and is not recognised otherwise. *)
Theorem parse_plain_select (raw : str) :
  startswith (strip raw) (lit "EXPLANATION:") = false ->
  contains (lit "```sql") raw = false ->
  contains (lit "```SQL") raw = false ->
  (parse raw = Sql (strip raw) <->
   startswith (strip raw) (lit "SELECT") = true) /\
  (startswith (strip raw) (lit "SELECT") = false ->
   parse raw = Unrecognized raw).
Proof.
  intros Hm Hl Hu.
  rewrite (parse_not_explanation _ Hm).
  unfold extract_sql. rewrite Hl, Hu.
  destruct (startswith (strip raw) (lit "SELECT")) eqn:Hs.
  - destruct (startswith_split _ _ Hs) as [r Hr].
    rewrite Hr. simpl. repeat split; congruence.
  - repeat split; congruence.
Qed.

Lemma parse_plain_select_witness :
  parse (lit "SELECT 1") = Sql (lit "SELECT 1") /\
  parse (lit "I cannot answer this.")
  = Unrecognized (lit "I cannot answer this.").
Proof.
  split.
  - apply (parse_plain_select (lit "SELECT 1")); reflexivity.
  - apply (parse_plain_select (lit "I cannot answer this.")); reflexivity.
Defined.

(** C7, as stated, fails when the fenced block that holds the marker is
    not the first one: the first block is what is extracted, and when that
    one is blank nothing is. *)
Lemma parse_marker_in_later_fence_counterexample :
  (let prefix := lit "```sql SELECT 1``` " in
   let body := lit " EXPLANATION: no " in
   let raw := prefix ++ lit "```sql" ++ body ++ lit "```" ++ [] in
   startswith (strip raw) (lit "EXPLANATION:") = false /\
   contains (lit "EXPLANATION:") body = true /\
   parse raw = Sql (lit "SELECT 1") /\
   contains (lit "EXPLANATION:") (lit "SELECT 1") = false) /\
  (let prefix := lit "```sql``` " in
   let body := lit " EXPLANATION: no " in
   let raw := prefix ++ lit "```sql" ++ body ++ lit "```" ++ [] in
   startswith (strip raw) (lit "EXPLANATION:") = false /\
   contains (lit "EXPLANATION:") body = true /\
   parse raw = Unrecognized raw).
Proof.
  repeat split; reflexivity.
Qed.

(** C7, amended.  When the trimmed reply does not start with the marker
    and the marker lies in the first [```sql] block of the reply (between
    its first [```sql] and the first [```] after that), the reply parses as
    the trimmed content of that block, marker included, and not as an
    explanation. *)
Theorem parse_marker_inside_first_fence (prefix body suffix : str) :
  let raw := prefix ++ lit "```sql" ++ body ++ lit "```" ++ suffix in
  startswith (strip raw) (lit "EXPLANATION:") = false ->
  find (lit "```sql") raw 0 = len prefix ->
  find (lit "```") (body ++ lit "```" ++ suffix) 0 = len body ->
  contains (lit "EXPLANATION:") body = true ->
  parse raw = Sql (strip body) /\
  contains (lit "EXPLANATION:") (strip body) = true /\
  parse raw <> Explanation raw.
Proof.
  intros raw Hm H1 H2 Hc.
  destruct (strip_keeps_marker _ Hc) as (p & r & Hs).
  assert (Hp : parse raw = Sql (strip body)).
  { rewrite (parse_not_explanation _ Hm).
    unfold raw. rewrite (extract_sql_lower_closed prefix body suffix H1 H2).
    rewrite Hs, truthy_cons_app; [reflexivity|discriminate]. }
  split; [exact Hp|split].
  - rewrite Hs. apply contains_intro.
  - rewrite Hp. discriminate.
Qed.

Lemma parse_marker_inside_first_fence_witness :
  let raw := lit "Answer: ```sql EXPLANATION: no such column ``` done" in
  parse raw = Sql (lit "EXPLANATION: no such column") /\
  parse raw <> Explanation raw.
Proof.
  destruct (parse_marker_inside_first_fence (lit "Answer: ")
              (lit " EXPLANATION: no such column ") (lit " done"))
    as (H & _ & H'); try reflexivity.
  split; [exact H | exact H'].
Defined.

(** C9, as stated, fails when the blank fence is not the one the code
    takes: a [```SQL] fence is looked for only when the reply holds no
    [```sql] at all, and of several fences the first one is taken. *)
Lemma parse_blank_other_fence_counterexample :
  (let raw := [] ++ lit "```SQL" ++ [] ++ lit "```" ++ lit " ```sql SELECT 1```" in
   forallb isspace [] = true /\
   startswith (strip raw) (lit "EXPLANATION:") = false /\
   parse raw = Sql (lit "SELECT 1") /\ parse raw <> Unrecognized raw) /\
  (let raw := lit "```sql SELECT 1``` " ++ lit "```sql" ++ lit " " ++ lit "```" ++ [] in
   forallb isspace (lit " ") = true /\
   startswith (strip raw) (lit "EXPLANATION:") = false /\
   parse raw = Sql (lit "SELECT 1") /\ parse raw <> Unrecognized raw).
Proof.
  repeat split; try reflexivity; vm_compute; discriminate.
Qed.

(** C9, amended.  When the fence the code takes (the first [```sql], or
    the first [```SQL] of a reply that holds no [```sql]) has nothing but
    white space up to the next closing fence, and the trimmed reply does
    not start with the marker, the reply is not recognised and is handed
    on as it came; and no reply at all parses as empty SQL. *)
Theorem parse_blank_fence_unrecognized (opener prefix body suffix : str) :
  let raw := prefix ++ opener ++ body ++ lit "```" ++ suffix in
  opener = lit "```sql" \/
  (opener = lit "```SQL" /\ contains (lit "```sql") raw = false) ->
  find opener raw 0 = len prefix ->
  forallb isspace body = true ->
  startswith (strip raw) (lit "EXPLANATION:") = false ->
  parse raw = Unrecognized raw /\ (forall r, parse r <> Sql []).
Proof.
  intros raw Ho H1 Hb Hm. split.
  - rewrite (parse_not_explanation _ Hm).
    pose proof (find_fence_after_spaces body suffix Hb) as H2.
    assert (He : extract_sql raw = Some (strip body)).
    { destruct Ho as [-> | [-> H0]].
      - exact (extract_sql_lower_closed prefix body suffix H1 H2).
      - exact (extract_sql_upper_closed prefix body suffix H0 H1 H2). }
    rewrite He, (strip_spaces _ Hb). reflexivity.
  - intros r Hr. apply parse_sql_truthy in Hr. discriminate.
Qed.

Lemma parse_blank_fence_unrecognized_witness :
  (let raw := lit "Here: ```sql  ``` sorry" in parse raw = Unrecognized raw) /\
  (let raw := lit "SELECT 1 ```SQL``` " in parse raw = Unrecognized raw).
Proof.
  split.
  - apply (parse_blank_fence_unrecognized (lit "```sql") (lit "Here: ")
             (lit "  ") (lit " sorry"));
      [left; reflexivity | reflexivity | reflexivity | reflexivity].
  - apply (parse_blank_fence_unrecognized (lit "```SQL") (lit "SELECT 1 ")
             [] (lit " "));
      [right; split; reflexivity | reflexivity | reflexivity | reflexivity].
Defined.

(** ** The completion call *)

Section ModelClientFacts.
Context {E : Externals}.

(** C3.  When the call to [model] raises an [Exception] [e]: for a model
    of the mixtral family the fallback model is called once with the same
    messages, its content is returned when it answers, and [e] itself is
    raised when it fails too, whatever it fails with; for any other model
    [e] is raised and no second call is made. *)
Theorem call_groq_model_fallback (system user model : str) (w w1 : World)
    (e : exn) :
  let messages :=
    [ {| role := lit "system"; content := system |};
      {| role := lit "user"; content := user |} ] in
  create model messages w = (Raise e, w1) ->
  is_Exception e = true ->
  call_groq_model system user model w =
  if contains (lit "mixtral") (lower model) then
    match create FALLBACK_MODEL messages w1 with
    | (Ok c, w2) =>
        (Ok c, w2,
         [EvCreate model messages; EvCreate FALLBACK_MODEL messages])
    | (Raise _, w2) =>
        (Raise e, w2,
         [EvCreate model messages; EvCreate FALLBACK_MODEL messages])
    end
  else (Raise e, w1, [EvCreate model messages]).
Proof.
  intros messages Hp He.
  unfold call_groq_model, try_except_Exception, chat_completions_create.
  fold messages. rewrite Hp, He.
  destruct (contains (lit "mixtral") (lower model)).
  - unfold bind, try_except, ret, raise.
    destruct (create FALLBACK_MODEL messages w1) as [[c|e2] w2]; reflexivity.
  - reflexivity.
Qed.

(** When the first call answers, its content is returned and nothing else
    is called. *)
Lemma call_groq_model_primary (system user model c : str) (w w1 : World) :
  let messages :=
    [ {| role := lit "system"; content := system |};
      {| role := lit "user"; content := user |} ] in
  create model messages w = (Ok c, w1) ->
  call_groq_model system user model w = (Ok c, w1, [EvCreate model messages]).
Proof.
  intros messages Hp.
  unfold call_groq_model, try_except_Exception, chat_completions_create.
  fold messages. now rewrite Hp.
Qed.

End ModelClientFacts.

Lemma call_groq_model_fallback_witness :
  let sys := lit "s" in
  let usr := lit "u" in
  let messages :=
    [ {| role := lit "system"; content := sys |};
      {| role := lit "user"; content := usr |} ] in
  let answer := lit "```sql SELECT 1```" in
  (* the fallback answers *)
  @call_groq_model Demo.externals sys usr (lit "Mixtral-8x7b-32768")
    [Raise Demo.rate_limited; Ok answer]
  = (Ok answer, [],
     [EvCreate (lit "Mixtral-8x7b-32768") messages;
      EvCreate FALLBACK_MODEL messages]) /\
  (* the fallback fails too: the first exception is the one raised *)
  @call_groq_model Demo.externals sys usr (lit "Mixtral-8x7b-32768")
    [Raise Demo.rate_limited; Raise Demo.decommissioned]
  = (Raise Demo.rate_limited, [],
     [EvCreate (lit "Mixtral-8x7b-32768") messages;
      EvCreate FALLBACK_MODEL messages]) /\
  (* another model: no second call *)
  @call_groq_model Demo.externals sys usr DEFAULT_MODEL
    [Raise Demo.rate_limited; Ok answer]
  = (Raise Demo.rate_limited, [Ok answer],
     [EvCreate DEFAULT_MODEL messages]).
Proof.
  split; [|split].
  - apply (@call_groq_model_fallback Demo.externals (lit "s") (lit "u")
             (lit "Mixtral-8x7b-32768")
             [Raise Demo.rate_limited; Ok (lit "```sql SELECT 1```")]
             [Ok (lit "```sql SELECT 1```")] Demo.rate_limited);
      reflexivity.
  - apply (@call_groq_model_fallback Demo.externals (lit "s") (lit "u")
             (lit "Mixtral-8x7b-32768")
             [Raise Demo.rate_limited; Raise Demo.decommissioned]
             [Raise Demo.decommissioned] Demo.rate_limited);
      reflexivity.
  - apply (@call_groq_model_fallback Demo.externals (lit "s") (lit "u")
             DEFAULT_MODEL
             [Raise Demo.rate_limited; Ok (lit "```sql SELECT 1```")]
             [Ok (lit "```sql SELECT 1```")] Demo.rate_limited);
      reflexivity.
Defined.

(** ** The analysis block *)

Section PipelineFacts.
Context {E : Externals}.

(** Without a question or without the button nothing happens. *)
Lemma no_run_no_effect (df : DataFrame Cell) (query : str)
    (sql_only run : bool) (w : World) :
  truthy query && run = false ->
  run_analysis df query sql_only run w = (Ok tt, w, []).
Proof. intros H. unfold run_analysis. now rewrite H. Qed.

End PipelineFacts.

Section ExecutionFacts.
Context {E : Externals}.


End ExecutionFacts.


(** ** The prompt *)

Section PromptFacts.
Context {E : Externals}.

Lemma join_keeps (sep c : str) (parts : list str) :
  In c parts -> exists p r, join sep parts = p ++ c ++ r.
Proof.
  induction parts as [|x parts IH]; intros Hin; [contradiction|].
  destruct parts as [|y parts].
  - destruct Hin as [->|[]]. exists [], []. simpl. now rewrite app_nil_r.
  - change (join sep (x :: y :: parts))
      with (x ++ sep ++ join sep (y :: parts)).
    destruct Hin as [->|Hin].
    + now exists [], (sep ++ join sep (y :: parts)).
    + destruct (IH Hin) as (p & r & ->).
      exists (x ++ sep ++ p), r. now rewrite <- !app_assoc.
Qed.

Lemma contains_inside (m a s b : str) :
  contains m s = true -> contains m (a ++ s ++ b) = true.
Proof.
  intros H. destruct (contains_split _ _ H) as (p & r & ->).
  replace (a ++ (p ++ m ++ r) ++ b) with ((a ++ p) ++ m ++ (r ++ b))
    by now rewrite <- !app_assoc.
  apply contains_intro.
Qed.

Lemma contains_part (sep c : str) (parts : list str) :
  In c parts -> contains c (join sep parts) = true.
Proof.
  intros H. destruct (join_keeps sep c parts H) as (p & r & ->).
  apply contains_intro.
Qed.

Lemma contains_self (m : str) : contains m m = true.
Proof.
  pose proof (contains_intro m [] []) as H.
  simpl in H. now rewrite app_nil_r in H.
Qed.

Lemma contains_behind (m a s : str) :
  contains m s = true -> contains m (a ++ s) = true.
Proof.
  intros H. pose proof (contains_inside m a s [] H) as H'.
  now rewrite app_nil_r in H'.
Qed.

Lemma contains_before (m s b : str) :
  contains m s = true -> contains m (s ++ b) = true.
Proof. intros H. exact (contains_inside m [] s b H). Qed.

(** The message holds the whole list of column names. *)
Lemma user_msg_columns (df : DataFrame Cell) (query : str) (m : str) :
  contains m (join (lit ", ") (columns df)) = true ->
  contains m (user_msg df query) = true.
Proof.
  intros H. unfold user_msg.
  do 3 apply contains_behind. apply contains_before. exact H.
Qed.

(** The message holds the whole list of name(type) pairs. *)
Lemma user_msg_typed_columns (df : DataFrame Cell) (query : str) (m : str) :
  contains m (join (lit ", ") (typed_columns df)) = true ->
  contains m (user_msg df query) = true.
Proof.
  intros H. unfold user_msg.
  do 6 apply contains_behind. apply contains_before. exact H.
Qed.

(** C8.  The user message is the same for two data frames with the same
    column names and dtypes and the same first ten rows, and the same
    question.  It holds the full list of column names and the full list of
    name(type) pairs, hence every name and every pair, however many
    columns there are; and the sample it embeds is the rendering of the
    first ten rows at most. *)
Theorem user_msg_deterministic_complete (df df' : DataFrame Cell)
    (query : str) :
  columns df = columns df' ->
  dtypes df = dtypes df' ->
  firstn 10 (rows df) = firstn 10 (rows df') ->
  user_msg df query = user_msg df' query /\
  contains (join (lit ", ") (columns df)) (user_msg df query) = true /\
  contains (join (lit ", ") (typed_columns df)) (user_msg df query) = true /\
  (forall c, In c (columns df) -> contains c (user_msg df query) = true) /\
  (forall c t, In (c, t) (combine (columns df) (dtypes df)) ->
     contains (c ++ lit "(" ++ t ++ lit ")") (user_msg df query) = true) /\
  (length (columns df) = length (dtypes df) ->
   length (typed_columns df) = length (columns df)) /\
  sample_of df = to_csv (head 10 df) /\
  rows (head 10 df) = firstn 10 (rows df) /\
  (length (rows (head 10 df)) <= 10)%nat.
Proof.
  intros Hc Ht Hr.
  assert (Hhead : head 10 df = head 10 df').
  { unfold head. now rewrite Hc, Ht, Hr. }
  repeat apply conj.
  - unfold user_msg, sample_of, typed_columns.
    rewrite Hhead, Hc, Ht. reflexivity.
  - apply user_msg_columns, contains_self.
  - apply user_msg_typed_columns, contains_self.
  - intros c Hin. apply user_msg_columns, contains_part, Hin.
  - intros c t Hin. apply user_msg_typed_columns, contains_part.
    unfold typed_columns.
    apply (in_map (fun cd => fst cd ++ lit "(" ++ snd cd ++ lit ")")) in Hin.
    exact Hin.
  - intros Hlen. unfold typed_columns.
    rewrite length_map, length_combine, <- Hlen. apply Nat.min_id.
  - reflexivity.
  - reflexivity.
  - exact (firstn_le_length 10 (rows df)).
Qed.

End PromptFacts.

Lemma user_msg_deterministic_complete_witness :
  (length (rows Demo.salaries) = 12)%nat /\
  rows Demo.salaries <> rows Demo.salaries' /\
  @user_msg Demo.externals Demo.salaries Demo.question
  = @user_msg Demo.externals Demo.salaries' Demo.question /\
  contains (lit "name, salary")
    (@user_msg Demo.externals Demo.salaries Demo.question) = true /\
  contains (lit "name(object), salary(float64)")
    (@user_msg Demo.externals Demo.salaries Demo.question) = true /\
  (length (rows (head 10 Demo.salaries)) <= 10)%nat.
Proof.
  pose proof (@user_msg_deterministic_complete Demo.externals Demo.salaries
                Demo.salaries' Demo.question eq_refl eq_refl eq_refl)
    as (H1 & H2 & H3 & _ & _ & _ & _ & _ & H4).
  split; [reflexivity|].
  split; [vm_compute; discriminate|].
  split; [exact H1|].
  split; [exact H2|].
  split; [exact H3|exact H4].
Defined.

(** * Further properties *)

Example splitlines_examples :
  splitlines [] = [] /\
  splitlines (lit "a=1" ++ nl) = [lit "a=1"] /\
  splitlines (lit "a" ++ [13; 10]%N ++ lit "b") = [lit "a"; lit "b"] /\
  splitlines (lit "a" ++ [10; 10]%N ++ lit "b") = [lit "a"; []; lit "b"] /\
  splitlines (lit "a" ++ [13]%N) = [lit "a"] /\
  splitlines nl = [[]].
Proof. repeat split. Qed.

Example split1_examples :
  split1 61%N (lit "a=b=c") = [lit "a"; lit "b=c"] /\
  split1 61%N (lit "abc") = [lit "abc"] /\
  split1 61%N [] = [[]] /\
  split1 61%N (lit "=x") = [[]; lit "x"].
Proof. repeat split. Qed.

(** ** More on strings *)

Section FindFacts.

(** What [find] returns is an occurrence, and the first one. *)
Lemma find_aux_first (sub s : str) (pos : Z) (n : nat) :
  0 <= pos ->
  find_aux sub s pos = pos + Z.of_nat n ->
  startswith (skipn n s) sub = true /\
  (forall k, (k < n)%nat -> startswith (skipn k s) sub = false) /\
  (n <= length s)%nat.
Proof.
  revert pos n. induction s as [|c s IH]; intros pos n Hpos H; simpl in H.
  - destruct (startswith [] sub) eqn:E; [|lia].
    assert (n = 0%nat) by lia. subst n.
    repeat split; [exact E | intros k Hk; lia | simpl; lia].
  - destruct (startswith (c :: s) sub) eqn:E.
    + assert (n = 0%nat) by lia. subst n.
      repeat split; [exact E | intros k Hk; lia | simpl; lia].
    + destruct (find_aux_range sub s (pos + 1)) as [Hr|Hr]; [lia|].
      destruct n as [|n]; [lia|].
      destruct (IH (pos + 1) n ltac:(lia) ltac:(lia)) as (H1 & H2 & H3).
      repeat split.
      * exact H1.
      * intros [|k] Hk; [exact E|]. apply H2. lia.
      * simpl. lia.
Qed.

Lemma find_0_nat (sub s : str) :
  find sub s 0 = -1 \/ exists n, find sub s 0 = Z.of_nat n.
Proof.
  rewrite find_0. destruct (find_aux_range sub s 0) as [H|H]; [now left|].
  right. exists (Z.to_nat (find_aux sub s 0)). lia.
Qed.

(** A string that holds [o] splits at the place [find] gives. *)
Lemma contains_find_split (o s : str) :
  contains o s = true ->
  exists p rest, s = p ++ o ++ rest /\ find o s 0 = len p.
Proof.
  intros H. unfold contains in H. apply negb_true_iff, Z.eqb_neq in H.
  destruct (find_0_nat o s) as [Hf|[n Hf]]; [contradiction|].
  pose proof Hf as Hf'. rewrite find_0 in Hf'.
  destruct (find_aux_first o s 0 n ltac:(lia) Hf') as (H1 & _ & H3).
  destruct (startswith_split _ _ H1) as [rest Hrest].
  exists (firstn n s), rest. split.
  - rewrite <- Hrest. symmetry. apply firstn_skipn.
  - rewrite Hf. unfold len. rewrite length_firstn. lia.
Qed.

(** Before the place [find] gives there is no occurrence. *)
Lemma no_occurrence_before (m s : str) (n : nat) :
  m <> [] ->
  find m s 0 = Z.of_nat n ->
  contains m (firstn n s) = false.
Proof.
  intros Hm Hf. rewrite find_0 in Hf.
  destruct (find_aux_first m s 0 n ltac:(lia) Hf) as (_ & Hmin & Hn).
  destruct (contains m (firstn n s)) eqn:Hc; [exfalso|reflexivity].
  destruct (contains_split _ _ Hc) as (p & q & Hpq).
  assert (Hlen : (length p + (length m + length q) = n)%nat).
  { rewrite <- (firstn_length_le s Hn), Hpq, !length_app. reflexivity. }
  assert (Hmpos : (0 < length m)%nat).
  { destruct m; [congruence|simpl; lia]. }
  assert (Hs : s = p ++ m ++ (q ++ skipn n s)).
  { rewrite <- (firstn_skipn n s) at 1. rewrite Hpq.
    now rewrite <- !app_assoc. }
  specialize (Hmin (length p) ltac:(lia)).
  rewrite Hs in Hmin.
  rewrite skipn_app, skipn_all, Nat.sub_diag in Hmin. simpl in Hmin.
  rewrite startswith_app in Hmin. discriminate.
Qed.

(** A part of a string holds nothing the string does not hold. *)
Lemma contains_part_false (m p x q : str) :
  contains m (p ++ x ++ q) = false -> contains m x = false.
Proof.
  intros H. destruct (contains m x) eqn:E; [|reflexivity].
  destruct (contains_split _ _ E) as (a & b & ->).
  replace (p ++ (a ++ m ++ b) ++ q) with ((p ++ a) ++ m ++ (b ++ q)) in H
    by now rewrite <- !app_assoc.
  now rewrite contains_intro in H.
Qed.

End FindFacts.

Section StripFacts.

Lemma lstrip_head (s : str) :
  match lstrip s with c :: _ => isspace c = false | [] => True end.
Proof.
  induction s as [|c s IH]; simpl; [exact I|].
  destruct (isspace c) eqn:E; [exact IH|exact E].
Qed.

Lemma lstrip_fixed (s : str) :
  match s with c :: _ => isspace c = false | [] => True end ->
  lstrip s = s.
Proof. destruct s as [|c s]; simpl; [reflexivity|]. now intros ->. Qed.

Lemma lstrip_idem (s : str) : lstrip (lstrip s) = lstrip s.
Proof. apply lstrip_fixed, lstrip_head. Qed.

Lemma lstrip_suffix (s : str) : exists p, s = p ++ lstrip s.
Proof.
  induction s as [|c s [p IH]]; [now exists []|].
  simpl. destruct (isspace c).
  - exists (c :: p). simpl. now f_equal.
  - now exists [].
Qed.

Lemma rstrip_prefix (s : str) : exists q, s = rstrip s ++ q.
Proof.
  unfold rstrip. destruct (lstrip_suffix (rev s)) as [p Hp].
  exists (rev p). rewrite <- rev_app_distr, <- Hp. now rewrite rev_involutive.
Qed.

(** The trimmed text lies in the text. *)
Lemma strip_inside (s : str) : exists p q, s = p ++ strip s ++ q.
Proof.
  unfold strip. destruct (lstrip_suffix s) as [p Hp].
  destruct (rstrip_prefix (lstrip s)) as [q Hq].
  exists p, q. now rewrite <- Hq.
Qed.

Lemma rstrip_head (s : str) :
  match s with c :: _ => isspace c = false | [] => True end ->
  match rstrip s with c :: _ => isspace c = false | [] => True end.
Proof.
  destruct s as [|c s]; [intros _; exact I|]. intros Hc.
  unfold rstrip. simpl rev.
  destruct (lstrip_keeps [c] (rev s) []) as [p' Hp']; [exact Hc|].
  simpl in Hp'. rewrite Hp'. rewrite rev_app_distr. simpl. exact Hc.
Qed.

(** Trimming a trimmed text changes nothing. *)
Lemma strip_idem (s : str) : strip (strip s) = strip s.
Proof.
  unfold strip at 1.
  rewrite (lstrip_fixed (strip s)) by apply rstrip_head, lstrip_head.
  unfold strip, rstrip. rewrite rev_involutive, lstrip_idem. reflexivity.
Qed.

End StripFacts.

(** ** More on the parse step *)

Section ExtractionFacts.

(** What lines 205-207 and 209-211 compute when the reply holds the opener
    [o]: the reply splits at the first [o]; the text taken runs from there
    to the first closing fence, or to the end when there is none; it holds
    no closing fence itself. *)
Lemma fence_slice_cases (o raw : str) :
  contains o raw = true ->
  exists p body tail,
    raw = p ++ o ++ body ++ tail /\
    (tail = [] \/ exists suffix, tail = lit "```" ++ suffix) /\
    find o raw 0 = len p /\
    contains (lit "```") body = false /\
    (let start := find o raw 0 + len o in
     let end_ := find (lit "```") raw start in
     if negb (end_ =? -1) then strip (slice raw start end_)
     else strip (slice_from raw start)) = strip body.
Proof.
  intros Hc. destruct (contains_find_split _ _ Hc) as (p & rest & Hraw & Hp).
  destruct (find_0_nat (lit "```") rest) as [Hf|[n Hf]].
  - assert (Hno : contains (lit "```") rest = false).
    { unfold contains. now rewrite Hf. }
    exists p, rest, []. rewrite app_nil_r.
    repeat split; try assumption; [now left|].
    subst raw. exact (fence_open o p rest Hp Hno).
  - pose proof Hf as Hf'. rewrite find_0 in Hf'.
    destruct (find_aux_first _ _ 0 n ltac:(lia) Hf') as (H1 & _ & H3).
    destruct (startswith_split _ _ H1) as [suffix Hsuf].
    assert (Hbody : contains (lit "```") (firstn n rest) = false)
      by (apply no_occurrence_before; [discriminate|exact Hf]).
    assert (Hlen : len (firstn n rest) = Z.of_nat n).
    { unfold len. now rewrite firstn_length_le. }
    assert (Hrest : rest = firstn n rest ++ lit "```" ++ suffix).
    { rewrite <- Hsuf. symmetry. apply firstn_skipn. }
    remember (firstn n rest) as body eqn:Hb. clear Hb H1 Hsuf Hf' H3.
    subst rest. subst raw.
    exists p, body, (lit "```" ++ suffix).
    repeat split; try assumption.
    + right. now exists suffix.
    + apply (fence_closed o p body suffix Hp). now rewrite Hf.
Qed.

(** The opener the code goes by: lower case first. *)
Lemma extract_sql_fenced (raw : str) :
  contains (lit "```sql") raw = true \/ contains (lit "```SQL") raw = true ->
  exists p body tail,
    let opener := if contains (lit "```sql") raw
                  then lit "```sql" else lit "```SQL" in
    raw = p ++ opener ++ body ++ tail /\
    (tail = [] \/ exists suffix, tail = lit "```" ++ suffix) /\
    find opener raw 0 = len p /\
    contains (lit "```") body = false /\
    extract_sql raw = Some (strip body).
Proof.
  intros H. unfold extract_sql.
  destruct (contains (lit "```sql") raw) eqn:Hl.
  - destruct (fence_slice_cases _ _ Hl) as (p & body & tail & H1 & H2 & H3 & H4 & H5).
    exists p, body, tail. cbv zeta in *. now rewrite H5.
  - destruct H as [H|H]; [discriminate|]. rewrite H.
    destruct (fence_slice_cases _ _ H) as (p & body & tail & H1 & H2 & H3 & H4 & H5).
    exists p, body, tail. cbv zeta in *. now rewrite H5.
Qed.

Lemma extract_sql_trimmed_inside (raw x : str) :
  extract_sql raw = Some x ->
  strip x = x /\ exists p q, raw = p ++ x ++ q.
Proof.
  intros H.
  destruct (contains (lit "```sql") raw || contains (lit "```SQL") raw) eqn:Hf.
  - apply orb_true_iff in Hf.
    destruct (extract_sql_fenced raw Hf)
      as (p & body & tail & Hraw & _ & _ & _ & He).
    rewrite He in H. injection H as <-. split; [apply strip_idem|].
    destruct (strip_inside body) as (a & b & Hb).
    cbv zeta in Hraw. rewrite Hraw.
    set (o := if contains (lit "```sql") raw then lit "```sql" else lit "```SQL").
    exists (p ++ o ++ a), (b ++ tail).
    rewrite Hb at 1. now rewrite <- !app_assoc.
  - apply orb_false_iff in Hf as [Hl Hu].
    unfold extract_sql in H. rewrite Hl, Hu in H.
    destruct (startswith (strip raw) (lit "SELECT")); [|discriminate].
    injection H as <-. split; [apply strip_idem|apply strip_inside].
Qed.

End ExtractionFacts.

(** X1.  The SQL the parse step hands on is never empty, has no white
    space at either end, and is a piece of the reply as it came. *)
Theorem parse_sql_trimmed_piece (raw s : str) :
  parse raw = Sql s ->
  s <> [] /\ strip s = s /\ (exists p q, raw = p ++ s ++ q) /\
  contains s raw = true.
Proof.
  intros H. pose proof (parse_sql_truthy _ _ H) as Ht.
  unfold parse in H.
  destruct (startswith (strip raw) (lit "EXPLANATION:")); [discriminate|].
  destruct (extract_sql raw) as [x|] eqn:He; [|discriminate].
  destruct (truthy x); [|discriminate]. injection H as <-.
  destruct (extract_sql_trimmed_inside _ _ He) as (Hs & p & q & Hraw).
  repeat split.
  - intros ->. discriminate.
  - exact Hs.
  - now exists p, q.
  - rewrite Hraw. apply contains_intro.
Qed.

Lemma parse_sql_trimmed_piece_witness :
  let raw := lit "Try this: ```sql   SELECT name FROM data_df  ``` ok?" in
  let s := lit "SELECT name FROM data_df" in
  s <> [] /\ strip s = s /\ (exists p q, raw = p ++ s ++ q) /\
  contains s raw = true.
Proof.
  exact (parse_sql_trimmed_piece
           (lit "Try this: ```sql   SELECT name FROM data_df  ``` ok?")
           (lit "SELECT name FROM data_df") eq_refl).
Defined.

(** X2.  The text taken from a fence: when the reply holds a fence opener
    and does not start with the marker, the reply splits at the first
    opener the code goes by ([```sql] if there is one, else [```SQL]) into
    the text before, the opener, a body without any [```], and either
    nothing or the closing fence with what follows; the reply parses as the
    trimmed body, or is not recognised when the body is blank. *)
Theorem parse_fence_shape (raw : str) :
  startswith (strip raw) (lit "EXPLANATION:") = false ->
  contains (lit "```sql") raw = true \/ contains (lit "```SQL") raw = true ->
  exists p body tail,
    let opener := if contains (lit "```sql") raw
                  then lit "```sql" else lit "```SQL" in
    raw = p ++ opener ++ body ++ tail /\
    (tail = [] \/ exists suffix, tail = lit "```" ++ suffix) /\
    find opener raw 0 = len p /\
    contains (lit "```") body = false /\
    parse raw = if truthy (strip body) then Sql (strip body)
                else Unrecognized raw.
Proof.
  intros Hm Hf.
  destruct (extract_sql_fenced raw Hf)
    as (p & body & tail & H1 & H2 & H3 & H4 & H5).
  exists p, body, tail. cbv zeta in *.
  repeat split; try assumption.
  now rewrite (parse_not_explanation _ Hm), H5.
Qed.

(** X3.  SQL taken from a fence holds no [```]: neither the closing fence
    nor a second opener gets into what is executed. *)
Theorem parse_fenced_sql_without_fence (raw s : str) :
  contains (lit "```sql") raw = true \/ contains (lit "```SQL") raw = true ->
  parse raw = Sql s ->
  contains (lit "```") s = false.
Proof.
  intros Hf H. unfold parse in H.
  destruct (startswith (strip raw) (lit "EXPLANATION:")); [discriminate|].
  destruct (extract_sql_fenced raw Hf)
    as (p & body & tail & _ & _ & _ & Hb & He).
  rewrite He in H. destruct (truthy (strip body)); [|discriminate].
  injection H as <-.
  destruct (strip_inside body) as (a & b & Hab).
  rewrite Hab in Hb. exact (contains_part_false _ _ _ _ Hb).
Qed.

Lemma parse_fence_shape_witness :
  let raw := lit "Use ```SQL select 1" in
  exists p body tail,
    let opener := if contains (lit "```sql") raw
                  then lit "```sql" else lit "```SQL" in
    raw = p ++ opener ++ body ++ tail /\
    (tail = [] \/ exists suffix, tail = lit "```" ++ suffix) /\
    find opener raw 0 = len p /\
    contains (lit "```") body = false /\
    parse raw = if truthy (strip body) then Sql (strip body)
                else Unrecognized raw.
Proof.
  apply (parse_fence_shape (lit "Use ```SQL select 1"));
    [reflexivity | right; reflexivity].
Defined.

Lemma parse_fenced_sql_without_fence_witness :
  contains (lit "```") (lit "SELECT 1") = false.
Proof.
  apply (parse_fenced_sql_without_fence
           (lit "a ```sql SELECT 1 ``` b ```sql x```") (lit "SELECT 1"));
    [left; reflexivity | reflexivity].
Defined.

(** ** More on the completion call *)

Section ModelClientMore.
Context {E : Externals}.

(** The three ways a call goes. *)
Lemma call_groq_model_cases (system user model : str) (w : World) :
  let messages :=
    [ {| role := lit "system"; content := system |};
      {| role := lit "user"; content := user |} ] in
  call_groq_model system user model w =
  match create model messages w with
  | (Ok c, w1) => (Ok c, w1, [EvCreate model messages])
  | (Raise e, w1) =>
      if is_Exception e && contains (lit "mixtral") (lower model) then
        match create FALLBACK_MODEL messages w1 with
        | (Ok c, w2) =>
            (Ok c, w2,
             [EvCreate model messages; EvCreate FALLBACK_MODEL messages])
        | (Raise _, w2) =>
            (Raise e, w2,
             [EvCreate model messages; EvCreate FALLBACK_MODEL messages])
        end
      else (Raise e, w1, [EvCreate model messages])
  end.
Proof.
  intros messages.
  unfold call_groq_model, try_except_Exception, chat_completions_create.
  fold messages.
  destruct (create model messages w) as [[c|e] w1]; [reflexivity|].
  destruct (is_Exception e); [|reflexivity].
  destruct (contains (lit "mixtral") (lower model)); [|reflexivity].
  unfold bind, try_except, ret, raise. cbn [andb].
  destruct (create FALLBACK_MODEL messages w1) as [[c|e2] w2]; reflexivity.
Qed.

(** X4.  Whatever [call_groq_model] raises is what the first call raised:
    an exception of the fallback is never the one that comes out, and a
    call whose first attempt answered does not raise. *)
Theorem call_groq_model_raises_first (system user model : str)
    (w w' : World) (e : exn) (t : list event) :
  call_groq_model system user model w = (Raise e, w', t) ->
  exists w1,
    create model
      [ {| role := lit "system"; content := system |};
        {| role := lit "user"; content := user |} ] w = (Raise e, w1).
Proof.
  rewrite call_groq_model_cases. cbv zeta.
  destruct (create model _ w) as [[c|e1] w1]; [discriminate|].
  destruct (is_Exception e1 && contains (lit "mixtral") (lower model)).
  - destruct (create FALLBACK_MODEL _ w1) as [[c|e2] w2]; [discriminate|].
    intros H. injection H as <- _ _. now exists w1.
  - intros H. injection H as <- _ _. now exists w1.
Qed.

(** X5.  A call of [call_groq_model] reaches the service once or twice,
    always with the same two messages, system first; the second call goes
    to the fallback model and is made exactly when the first one raised an
    [Exception] and the lower-cased model name holds [mixtral]. *)
Theorem call_groq_model_calls (system user model : str) (w : World) :
  let messages :=
    [ {| role := lit "system"; content := system |};
      {| role := lit "user"; content := user |} ] in
  let t := snd (call_groq_model system user model w) in
  (t = [EvCreate model messages] \/
   t = [EvCreate model messages; EvCreate FALLBACK_MODEL messages]) /\
  (t = [EvCreate model messages; EvCreate FALLBACK_MODEL messages] <->
   exists e w1, create model messages w = (Raise e, w1) /\
                is_Exception e = true /\
                contains (lit "mixtral") (lower model) = true).
Proof.
  intros messages t. unfold t. rewrite call_groq_model_cases.
  fold messages.
  destruct (create model messages w) as [[c|e] w1] eqn:Hc.
  - split; [now left|]. split; [discriminate|].
    intros (e & w2 & H & _). discriminate.
  - destruct (is_Exception e) eqn:He;
      destruct (contains (lit "mixtral") (lower model)) eqn:Hm; cbn [andb].
    + assert (Ht : snd (match create FALLBACK_MODEL messages w1 with
                        | (Ok c, w2) =>
                            (Ok c, w2, [EvCreate model messages;
                                        EvCreate FALLBACK_MODEL messages])
                        | (Raise _, w2) =>
                            (@Raise str e, w2,
                             [EvCreate model messages;
                              EvCreate FALLBACK_MODEL messages])
                        end)
                   = [EvCreate model messages;
                      EvCreate FALLBACK_MODEL messages]).
      { destruct (create FALLBACK_MODEL messages w1) as [[c|e2] w2];
          reflexivity. }
      rewrite Ht. split; [now right|]. split; [|reflexivity].
      intros _. now exists e, w1.
    + split; [now left|]. split; [discriminate|].
      intros (e' & w2 & _ & _ & H). discriminate.
    + split; [now left|]. split; [discriminate|].
      intros (e' & w2 & H & He' & _). injection H as <- _. congruence.
    + split; [now left|]. split; [discriminate|].
      intros (e' & w2 & _ & _ & H). discriminate.
Qed.

Lemma call_groq_model_trace (system user model : str) (w : World)
    (ev : event) :
  In ev (snd (call_groq_model system user model w)) ->
  exists m ms, ev = EvCreate m ms.
Proof.
  rewrite call_groq_model_cases. cbv zeta.
  destruct (create model _ w) as [[c|e] w1].
  - simpl. intros [<-|[]]. eauto.
  - destruct (is_Exception e && contains (lit "mixtral") (lower model)).
    + destruct (create FALLBACK_MODEL _ w1) as [[c|e2] w2]; simpl;
        intros [<-|[<-|[]]]; eauto.
    + simpl. intros [<-|[]]. eauto.
Qed.

End ModelClientMore.

Lemma call_groq_model_raises_first_witness :
  exists w1,
    @create Demo.externals (lit "mixtral-8x7b")
      [ {| role := lit "system"; content := lit "s" |};
        {| role := lit "user"; content := lit "u" |} ]
      [Raise Demo.rate_limited; Raise Demo.decommissioned]
    = (Raise Demo.rate_limited, w1).
Proof.
  exact (@call_groq_model_raises_first Demo.externals (lit "s") (lit "u")
           (lit "mixtral-8x7b")
           [Raise Demo.rate_limited; Raise Demo.decommissioned] []
           Demo.rate_limited
           [EvCreate (lit "mixtral-8x7b")
              [ {| role := lit "system"; content := lit "s" |};
                {| role := lit "user"; content := lit "u" |} ];
            EvCreate FALLBACK_MODEL
              [ {| role := lit "system"; content := lit "s" |};
                {| role := lit "user"; content := lit "u" |} ]]
           eq_refl).
Defined.

Lemma call_groq_model_calls_witness :
  let messages :=
    [ {| role := lit "system"; content := lit "s" |};
      {| role := lit "user"; content := lit "u" |} ] in
  snd (@call_groq_model Demo.externals (lit "s") (lit "u")
         (lit "MIXTRAL-8x7b") [Raise Demo.rate_limited; Ok (lit "SELECT 1")])
  = [EvCreate (lit "MIXTRAL-8x7b") messages;
     EvCreate FALLBACK_MODEL messages].
Proof.
  apply (proj2 (@call_groq_model_calls Demo.externals (lit "s") (lit "u")
                  (lit "MIXTRAL-8x7b")
                  [Raise Demo.rate_limited; Ok (lit "SELECT 1")])).
  exists Demo.rate_limited, [Ok (lit "SELECT 1")].
  repeat split.
Defined.

(** ** More on the analysis block *)

Section RunFacts.
Context {E : Externals}.

Lemma execute_cases (sql reply : str) (w : World) :
  execute sql reply w =
  match sql_fetchdf sql w with
  | (Ok res, w1) =>
      (Ok tt, w1,
       [EvUi (Spinner (lit "Executing query...")); EvSql sql;
        EvUi (Subheader (lit "Query Results"));
        EvUi (Dataframe res);
        EvUi (DownloadButton (inbox_tray ++ lit " Download Results as CSV")
                (to_csv res) (lit "query_results.csv") (lit "text/csv"))])
  | (Raise e, w1) =>
      if is_Exception e then
        (Ok tt, w1,
         [EvUi (Spinner (lit "Executing query...")); EvSql sql;
          EvUi (Error (cross_mark ++ lit " SQL Execution Error: "
                       ++ exn_str e));
          EvUi (Info (lit "**Raw Response from AI:**"));
          EvUi (Code reply None)])
      else (Raise e, w1, [EvUi (Spinner (lit "Executing query...")); EvSql sql])
  end.
Proof.
  unfold execute, try_except_Exception, bind, st, duckdb_sql.
  destruct (sql_fetchdf sql w) as [[res|e] w1]; [reflexivity|].
  destruct (is_Exception e); reflexivity.
Qed.

Lemma show_reply_cases (reply : str) (sql_only : bool) (w : World) :
  show_reply reply sql_only w =
  match parse reply with
  | Explanation raw =>
      (Ok tt, w, [EvUi (Subheader (lit "Generated SQL Query"));
                  EvUi (Info raw)])
  | Unrecognized raw =>
      (Ok tt, w, [EvUi (Subheader (lit "Generated SQL Query"));
                  EvUi (Warning (lit "Could not extract SQL from response"));
                  EvUi (Info (lit "**AI Response:**"));
                  EvUi (Code raw None)])
  | Sql sql =>
      if sql_only then
        (Ok tt, w, [EvUi (Subheader (lit "Generated SQL Query"));
                    EvUi (Code sql (Some (lit "sql")))])
      else
        let '(r, w1, t) := execute sql reply w in
        (r, w1, [EvUi (Subheader (lit "Generated SQL Query"));
                 EvUi (Code sql (Some (lit "sql")))] ++ t)
  end.
Proof.
  unfold show_reply, bind, st, ret.
  destruct (parse reply) as [raw|sql|raw]; try reflexivity.
  destruct sql_only; cbn [negb]; [reflexivity|].
  destruct (execute sql reply w) as [[r w1] t]. reflexivity.
Qed.

Lemma run_analysis_cases (df : DataFrame Cell) (query : str)
    (sql_only : bool) (w : World) :
  truthy query = true ->
  run_analysis df query sql_only true w =
  let start := [EvRegister (lit "data_df") df;
                EvUi (Spinner (lit "Generating SQL query..."))] in
  let service_failure_notice := fun e : exn =>
    [EvUi (Error (cross_mark ++ lit " Error: " ++ exn_str e));
     EvUi (Info (lit "Make sure your GROQ_API_KEY is valid and the model is available."))] in
  match call_groq_model system_prompt (user_msg df query) DEFAULT_MODEL
          (register (lit "data_df") df w) with
  | (Ok reply, w1, t1) =>
      match show_reply reply sql_only w1 with
      | (Ok u, w2, t2) => (Ok u, w2, start ++ t1 ++ t2)
      | (Raise e, w2, t2) =>
          if is_Exception e
          then (Ok tt, w2, start ++ (t1 ++ t2) ++ service_failure_notice e)
          else (Raise e, w2, start ++ t1 ++ t2)
      end
  | (Raise e, w1, t1) =>
      if is_Exception e
      then (Ok tt, w1, start ++ t1 ++ service_failure_notice e)
      else (Raise e, w1, start ++ t1)
  end.
Proof.
  intros Hq. unfold run_analysis. rewrite Hq. cbn [andb].
  unfold bind at 1. unfold duckdb_register.
  unfold try_except_Exception. unfold bind at 1. unfold bind at 1.
  unfold st at 1. cbv beta zeta.
  destruct (call_groq_model system_prompt (user_msg df query) DEFAULT_MODEL
              (register (lit "data_df") df w)) as [[[reply|e] w1] t1].
  - destruct (show_reply reply sql_only w1) as [[[u|e] w2] t2].
    + reflexivity.
    + destruct (is_Exception e); [|reflexivity].
      unfold bind, st. simpl. rewrite <- ?app_assoc. reflexivity.
  - destruct (is_Exception e); [|reflexivity].
    unfold bind, st. simpl. rewrite <- ?app_assoc. reflexivity.
Qed.

End RunFacts.

Section RunShape.
Context {E : Externals}.

Lemma parse_sql_extract (raw s : str) :
  parse raw = Sql s -> extract_sql raw = Some s /\ truthy s = true.
Proof.
  unfold parse.
  destruct (startswith (strip raw) (lit "EXPLANATION:")); [discriminate|].
  destruct (extract_sql raw) as [x|]; [|discriminate].
  destruct (truthy x) eqn:Hx; [|discriminate].
  intros H. injection H as <-. now split.
Qed.

Lemma no_sql_in_creates (t : list event) :
  (forall ev, In ev t -> exists m ms, ev = EvCreate m ms) ->
  forall s, ~ In (EvSql s) t.
Proof.
  intros H s Hin. destruct (H _ Hin) as (m & ms & Hev). discriminate.
Qed.

(** The trace of a run: the registration, the spinner, the calls of the
    service, and then, without any further call, either no SQL at all or
    one execution, of trimmed SQL that is not empty, right after it was
    shown. *)
Lemma run_trace_shape (df : DataFrame Cell) (query : str) (sql_only : bool)
    (w : World) :
  truthy query = true ->
  exists t1 tail,
    snd (run_analysis df query sql_only true w) =
      [EvRegister (lit "data_df") df;
       EvUi (Spinner (lit "Generating SQL query..."))] ++ t1 ++ tail /\
    t1 = snd (call_groq_model system_prompt (user_msg df query) DEFAULT_MODEL
                (register (lit "data_df") df w)) /\
    (forall m ms, ~ In (EvCreate m ms) tail) /\
    ((forall s, ~ In (EvSql s) tail) \/
     (sql_only = false /\
      exists s rest,
        s <> [] /\ strip s = s /\
        tail = [EvUi (Subheader (lit "Generated SQL Query"));
                EvUi (Code s (Some (lit "sql")));
                EvUi (Spinner (lit "Executing query..."));
                EvSql s] ++ rest /\
        forall s', ~ In (EvSql s') rest)).
Proof.
  intros Hq. rewrite (run_analysis_cases df query sql_only w Hq). cbv zeta.
  destruct (call_groq_model system_prompt (user_msg df query) DEFAULT_MODEL
              (register (lit "data_df") df w)) as [[[reply|e] w1] t1].
  2:{ destruct (is_Exception e).
      - eexists t1, _. split; [reflexivity|]. split; [reflexivity|].
        split; [intros m ms [H|[H|[]]]; discriminate|]. left.
        intros s [H|[H|[]]]; discriminate.
      - exists t1, []. rewrite app_nil_r. split; [reflexivity|].
        split; [reflexivity|]. split; [intros m ms []|].
        left. intros s [].
  }
  rewrite show_reply_cases.
  destruct (parse reply) as [raw|sql|raw] eqn:Hp.
  - eexists t1, _. split; [reflexivity|]. split; [reflexivity|].
    split; [intros m ms [H|[H|[]]]; discriminate|]. left.
    intros s [H|[H|[]]]; discriminate.
  - destruct (parse_sql_extract _ _ Hp) as (He & Htr).
    destruct (extract_sql_trimmed_inside _ _ He) as (Hs & _).
    assert (Hne : sql <> []) by (intros ->; discriminate).
    destruct sql_only.
    + eexists t1, _. split; [reflexivity|]. split; [reflexivity|].
      split; [intros m ms [H|[H|[]]]; discriminate|]. left.
      intros s [H|[H|[]]]; discriminate.
    + rewrite execute_cases.
      destruct (sql_fetchdf sql w1) as [[res|e] w2].
      * exists t1. eexists. split; [reflexivity|]. split; [reflexivity|].
        split; [intros m ms Hin; simpl in Hin; intuition discriminate|].
        right. split; [reflexivity|]. exists sql. eexists.
        split; [exact Hne|]. split; [exact Hs|]. split; [reflexivity|].
        intros s' [H|[H|[H|[]]]]; discriminate.
      * destruct (is_Exception e) eqn:HE.
        -- exists t1. eexists. split; [reflexivity|]. split; [reflexivity|].
           split; [intros m ms Hin; simpl in Hin; intuition discriminate|].
           right. split; [reflexivity|]. exists sql. eexists.
           split; [exact Hne|]. split; [exact Hs|]. split; [reflexivity|].
           intros s' [H|[H|[H|[]]]]; discriminate.
        -- cbv beta iota. rewrite HE. exists t1. eexists.
           split; [reflexivity|]. split; [reflexivity|].
           split; [intros m ms Hin; simpl in Hin; intuition discriminate|].
           right. split; [reflexivity|]. exists sql, [].
           split; [exact Hne|]. split; [exact Hs|]. split; [reflexivity|].
           intros s' [].
  - eexists t1, _. split; [reflexivity|]. split; [reflexivity|].
    split; [intros m ms [H|[H|[H|[H|[]]]]]; discriminate|]. left.
    intros s [H|[H|[H|[H|[]]]]]; discriminate.
Qed.

End RunShape.

Section RunTheorems.
Context {E : Externals}.

(** Behind the registration no exception of class [Exception] gets out:
    whatever the service and the engine do, [run_analysis] ends normally
    or with an exception that [except Exception] does not catch. *)
Lemma run_analysis_catches (df : DataFrame Cell) (query : str)
    (sql_only run : bool) (w w' : World) (e : exn) (t : list event) :
  run_analysis df query sql_only run w = (Raise e, w', t) ->
  is_Exception e = false.
Proof.
  destruct (truthy query && run) eqn:G.
  - apply andb_true_iff in G as [Hq ->].
    rewrite (run_analysis_cases df query sql_only w Hq). cbv zeta.
    destruct (call_groq_model _ _ _ _) as [[[reply|e0] w1] t1].
    + destruct (show_reply reply sql_only w1) as [[[u|e1] w2] t2];
        [discriminate|].
      destruct (is_Exception e1) eqn:He1; [discriminate|].
      intros H. injection H as <- _ _. exact He1.
    + destruct (is_Exception e0) eqn:He0; [discriminate|].
      intros H. injection H as <- _ _. exact He0.
  - rewrite (no_run_no_effect _ _ _ _ _ G). discriminate.
Qed.

(** X7.  SQL is executed only in a run that is not "SQL only", at most
    once, and what is executed is the text just shown as the generated
    query: not empty and without white space at its ends. *)
Theorem run_analysis_executes_shown_sql (df : DataFrame Cell) (query : str)
    (sql_only run : bool) (w : World) (s : str) :
  let trace := snd (run_analysis df query sql_only run w) in
  In (EvSql s) trace ->
  sql_only = false /\ s <> [] /\ strip s = s /\
  exists pre post,
    trace = pre ++ [EvUi (Code s (Some (lit "sql")));
                    EvUi (Spinner (lit "Executing query..."));
                    EvSql s] ++ post /\
    (forall s', ~ In (EvSql s') pre) /\
    (forall s', ~ In (EvSql s') post).
Proof.
  intros trace Hin. unfold trace in *.
  destruct (truthy query && run) eqn:G.
  2:{ rewrite (no_run_no_effect _ _ _ _ _ G) in Hin. destruct Hin. }
  apply andb_true_iff in G as [Hq ->].
  destruct (run_trace_shape df query sql_only w Hq)
    as (t1 & tail & Htr & Ht1 & _ & Htail).
  rewrite Htr in Hin |- *.
  assert (Hcalls : forall s', ~ In (EvSql s') t1).
  { apply no_sql_in_creates. rewrite Ht1.
    apply call_groq_model_trace. }
  apply in_app_or in Hin as [Hin|Hin];
    [destruct Hin as [H|[H|[]]]; discriminate|].
  apply in_app_or in Hin as [Hin|Hin]; [now apply Hcalls in Hin|].
  destruct Htail as [Hno|(Hso & s0 & rest & Hne & Hs & -> & Hrest)];
    [now apply Hno in Hin|].
  assert (s = s0).
  { destruct Hin as [H|[H|[H|[H|H]]]]; try discriminate.
    - now injection H.
    - now apply Hrest in H. }
  subst s0. repeat split; try assumption.
  exists ([EvRegister (lit "data_df") df;
           EvUi (Spinner (lit "Generating SQL query..."))] ++ t1 ++
          [EvUi (Subheader (lit "Generated SQL Query"))]), rest.
  split; [now rewrite <- !app_assoc|]. split; [|exact Hrest].
  intros s' H. apply in_app_or in H as [H|H];
    [destruct H as [H|[H|[]]]; discriminate|].
  apply in_app_or in H as [H|H]; [now apply Hcalls in H|].
  destruct H as [H|[]]. discriminate.
Qed.


(** Behind the registration the service is called exactly once, with the
    default model and the system and user messages, and the fallback
    model is not called (the lower-cased name of the default model holding
    no [mixtral]). *)
Lemma run_analysis_calls (df : DataFrame Cell) (query : str)
    (sql_only : bool) (w : World) :
  let messages :=
    [ {| role := lit "system"; content := system_prompt |};
      {| role := lit "user"; content := user_msg df query |} ] in
  truthy query = true ->
  contains (lit "mixtral") (lower DEFAULT_MODEL) = false ->
  exists tail,
    snd (run_analysis df query sql_only true w) =
      [EvRegister (lit "data_df") df;
       EvUi (Spinner (lit "Generating SQL query..."));
       EvCreate DEFAULT_MODEL messages] ++ tail /\
    forall m ms, ~ In (EvCreate m ms) tail.
Proof.
  intros messages Hq Hl.
  destruct (run_trace_shape df query sql_only w Hq)
    as (t1 & tail & Htr & Ht1 & Hnc & _).
  exists tail. split; [|exact Hnc].
  rewrite Htr, Ht1, call_groq_model_cases. cbv zeta. fold messages.
  rewrite Hl.
  destruct (create DEFAULT_MODEL messages (register (lit "data_df") df w))
    as [[c|e] w1]; [reflexivity|].
  now rewrite andb_false_r.
Qed.

End RunTheorems.

Lemma run_analysis_executes_shown_sql_witness :
  let s := lit "SELEKT * FROM x" in
  let trace :=
    snd (@run_analysis Demo.externals Demo.salaries Demo.question false true
           [Ok (lit "```sql SELEKT * FROM x ```")]) in
  false = false /\ s <> [] /\ strip s = s /\
  exists pre post,
    trace = pre ++ [EvUi (Code s (Some (lit "sql")));
                    EvUi (Spinner (lit "Executing query..."));
                    EvSql s] ++ post /\
    (forall s', ~ In (EvSql s') pre) /\
    (forall s', ~ In (EvSql s') post).
Proof.
  apply (@run_analysis_executes_shown_sql Demo.externals Demo.salaries
           Demo.question false true [Ok (lit "```sql SELEKT * FROM x ```")]
           (lit "SELEKT * FROM x")).
  do 6 right. left. reflexivity.
Defined.


(** ** The key file *)

Section TextFacts.

Lemma eqb_eq (a b : str) : eqb a b = true <-> a = b.
Proof.
  revert b. induction a as [|x a IH]; intros [|y b]; simpl;
    try (split; [discriminate|discriminate]); [tauto|].
  rewrite andb_true_iff, N.eqb_eq, IH.
  split; [intros [-> ->]; reflexivity | intros H; injection H; auto].
Qed.

Lemma eqb_refl (a : str) : eqb a a = true.
Proof. now apply eqb_eq. Qed.

Lemma eqb_neq (a b : str) : eqb a b = false <-> a <> b.
Proof.
  split.
  - intros H Heq. apply eqb_eq in Heq. congruence.
  - intros H. destruct (eqb a b) eqn:E; [|reflexivity].
    apply eqb_eq in E. contradiction.
Qed.

(** ["c" in s] for a single character. *)
Lemma contains_char (c : char) (s : str) :
  contains [c] s = true <-> In c s.
Proof.
  split.
  - intros H. destruct (contains_split _ _ H) as (p & r & ->).
    apply in_or_app. right. now left.
  - intros H. destruct (in_split _ _ H) as (p & r & ->).
    exact (contains_intro [c] p r).
Qed.

Lemma split1_found (sep : char) (s : str) :
  In sep s ->
  exists k v, split1 sep s = [k; v] /\ s = k ++ sep :: v /\ ~ In sep k.
Proof.
  induction s as [|c s IH]; intros Hin; [destruct Hin|].
  simpl. destruct (N.eqb_spec c sep) as [->|Hne].
  - exists [], s. repeat split. intros [].
  - destruct Hin as [H|H]; [contradiction|].
    destruct (IH H) as (k & v & Hs & Heq & Hk).
    rewrite Hs. exists (c :: k), v. repeat split.
    + simpl. now rewrite Heq.
    + intros [H'|H']; [contradiction|now apply Hk].
Qed.

Lemma split1_key (sep : char) (k v : str) :
  ~ In sep k -> split1 sep (k ++ sep :: v) = [k; v].
Proof.
  induction k as [|c k IH]; intros Hk; simpl.
  - now rewrite N.eqb_refl.
  - destruct (N.eqb_spec c sep) as [->|Hne].
    + exfalso. apply Hk. now left.
    + rewrite IH; [reflexivity|]. intros H. apply Hk. now right.
Qed.

Lemma single_line_app (a b : str) :
  single_line (a ++ b) = single_line a && single_line b.
Proof. apply forallb_app. Qed.

(** A text without line boundaries is its own single line. *)
Lemma splitlines_single (l : str) :
  single_line l = true -> l <> [] -> splitlines l = [l].
Proof.
  induction l as [|c l IH]; intros Hl Hne; [congruence|].
  simpl in Hl. apply andb_true_iff in Hl as [Hc Hl].
  apply negb_true_iff in Hc. simpl. rewrite Hc.
  destruct l as [|d l]; [reflexivity|].
  rewrite (IH Hl) by discriminate. reflexivity.
Qed.

Lemma splitlines_line (l rest : str) :
  single_line l = true ->
  splitlines (l ++ nl ++ rest) = l :: splitlines rest.
Proof.
  induction l as [|c l IH]; intros Hl.
  - reflexivity.
  - simpl in Hl. apply andb_true_iff in Hl as [Hc Hl].
    apply negb_true_iff in Hc.
    change ((c :: l) ++ nl ++ rest) with (c :: (l ++ nl ++ rest)).
    cbn [splitlines]. rewrite Hc, (IH Hl). reflexivity.
Qed.

(** Lines that are not empty and hold no line boundary come back from the
    text they are joined to. *)
Lemma splitlines_join (lines : list str) :
  Forall (fun l => single_line l = true /\ l <> []) lines ->
  splitlines (join nl lines) = lines.
Proof.
  induction lines as [|x lines IH]; intros H; [reflexivity|].
  inversion H as [|? ? [Hx Hne] Hrest]; subst.
  destruct lines as [|y lines].
  - simpl. now apply splitlines_single.
  - change (join nl (x :: y :: lines)) with (x ++ nl ++ join nl (y :: lines)).
    rewrite (splitlines_line _ _ Hx), (IH Hrest). reflexivity.
Qed.

(** No line that [splitlines] gives holds a line boundary. *)
Lemma splitlines_lines_single (n : nat) (s : str) :
  (length s <= n)%nat ->
  Forall (fun l => single_line l = true) (splitlines s).
Proof.
  revert s. induction n as [|n IH]; intros s Hn.
  - destruct s; [constructor|simpl in Hn; lia].
  - destruct s as [|c s]; [constructor|]. simpl in Hn.
    cbn [splitlines]. destruct (is_linebreak c) eqn:Hc.
    + constructor; [reflexivity|].
      destruct (N.eqb c 13); [|apply IH; lia].
      destruct s as [|d s]; [constructor|].
      destruct (N.eqb d 10); apply IH; simpl in *; lia.
    + pose proof (IH s ltac:(lia)) as Hs.
      destruct (splitlines s) as [|l ls].
      * constructor; [|constructor]. simpl. now rewrite Hc.
      * inversion Hs; subst. constructor; [|assumption].
        simpl. rewrite Hc. assumption.
Qed.

End TextFacts.

Section DictFacts.

Lemma dict_get_set_same (d : dict) (k v : str) :
  dict_get (dict_set d k v) k = Some v.
Proof.
  induction d as [|[k' v'] d IH]; simpl.
  - now rewrite eqb_refl.
  - destruct (eqb k' k) eqn:E; simpl; rewrite E; [reflexivity|exact IH].
Qed.

Lemma dict_get_set_other (d : dict) (k v k0 : str) :
  k0 <> k -> dict_get (dict_set d k v) k0 = dict_get d k0.
Proof.
  intros Hne. induction d as [|[k' v'] d IH]; simpl.
  - assert (E : eqb k k0 = false) by (apply eqb_neq; congruence).
    now rewrite E.
  - destruct (eqb k' k) eqn:E; simpl.
    + apply eqb_eq in E. subst k'.
      assert (E' : eqb k k0 = false) by (apply eqb_neq; congruence).
      now rewrite E'.
    + destruct (eqb k' k0); [reflexivity|exact IH].
Qed.

Lemma dict_set_fresh (d : dict) (k v : str) :
  ~ In k (map fst d) -> dict_set d k v = d ++ [(k, v)].
Proof.
  induction d as [|[k' v'] d IH]; intros Hk; simpl; [reflexivity|].
  simpl in Hk.
  assert (E : eqb k' k = false) by (apply eqb_neq; intros ->; apply Hk; now left).
  rewrite E, IH; [reflexivity|]. intros H. apply Hk. now right.
Qed.

Lemma dict_set_keys (d : dict) (k v : str) :
  (In k (map fst d) -> map fst (dict_set d k v) = map fst d) /\
  (~ In k (map fst d) -> map fst (dict_set d k v) = map fst d ++ [k]).
Proof.
  split.
  - induction d as [|[k' v'] d IH]; simpl; [intros []|].
    intros Hin. destruct (eqb k' k) eqn:E; [reflexivity|].
    apply eqb_neq in E. destruct Hin as [H|H]; [contradiction|].
    simpl. now rewrite IH.
  - intros H. now rewrite dict_set_fresh, map_app.
Qed.

Lemma dict_set_NoDup (d : dict) (k v : str) :
  NoDup (map fst d) -> NoDup (map fst (dict_set d k v)).
Proof.
  intros H. destruct (dict_set_keys d k v) as [Hin Hnin].
  destruct (in_dec (list_eq_dec N.eq_dec) k (map fst d)) as [Hk|Hk].
  - now rewrite (Hin Hk).
  - rewrite (Hnin Hk).
    apply NoDup_app; [exact H | repeat constructor; intros [] | ].
    intros x Hx [<-|[]]. contradiction.
Qed.

Lemma dict_set_Forall (P : str * str -> Prop) (d : dict) (k v : str) :
  (forall k' v', In (k', v') d -> P (k', v') -> eqb k' k = true -> P (k', v)) ->
  P (k, v) ->
  Forall P d -> Forall P (dict_set d k v).
Proof.
  intros Hrep Hnew. induction d as [|[k' v'] d IH]; intros H; simpl.
  - repeat constructor. exact Hnew.
  - inversion H as [|? ? Hhd Htl]; subst.
    destruct (eqb k' k) eqn:E.
    + constructor; [|exact Htl]. apply (Hrep k' v'); [now left|exact Hhd|exact E].
    + constructor; [exact Hhd|]. apply IH; [|exact Htl].
      intros k2 v2 Hin. apply Hrep. now right.
Qed.

Lemma dict_set_idem (d : dict) (k v : str) :
  dict_set (dict_set d k v) k v = dict_set d k v.
Proof.
  induction d as [|[k' v'] d IH]; simpl.
  - now rewrite eqb_refl.
  - destruct (eqb k' k) eqn:E; simpl; rewrite E; [reflexivity|].
    now rewrite IH.
Qed.

(** Setting the items of a dictionary without repeated keys, in order,
    builds that dictionary. *)
Lemma fold_set_fresh (d acc : dict) :
  NoDup (map fst (acc ++ d)) ->
  fold_left (fun a kv => dict_set a (fst kv) (snd kv)) d acc = acc ++ d.
Proof.
  revert acc. induction d as [|[k v] d IH]; intros acc H; simpl.
  - now rewrite app_nil_r.
  - rewrite dict_set_fresh.
    + rewrite IH; rewrite <- app_assoc; [reflexivity|exact H].
    + rewrite map_app in H. simpl in H. apply NoDup_remove_2 in H.
      intros Hin. apply H. apply in_or_app. now left.
Qed.

End DictFacts.

Section EnvFacts.

Lemma render_env_lines (d : dict) : render_env d = join nl (map item_line d).
Proof. reflexivity. Qed.

Lemma env_ok_nil : env_ok [].
Proof. split; constructor. Qed.

Lemma env_ok_set (d : dict) (k v : str) :
  env_ok d -> ~ In 61%N k -> single_line k = true -> single_line v = true ->
  env_ok (dict_set d k v).
Proof.
  intros [Hnd Hall] Hk Hks Hvs. split; [now apply dict_set_NoDup|].
  apply dict_set_Forall; [|now repeat split|exact Hall].
  intros k' v' _ (H1 & H2 & _) _. now repeat split.
Qed.

Lemma read_line_ok (acc : dict) (line : str) :
  exists d, read_line acc line = Ok d /\
            (env_ok acc -> single_line line = true -> env_ok d).
Proof.
  unfold read_line. destruct (contains (lit "=") line) eqn:Hc.
  - change (lit "=") with [61%N] in Hc. apply contains_char in Hc.
    destruct (split1_found _ _ Hc) as (k & v & Hs & Hl & Hk).
    rewrite Hs. eexists. split; [reflexivity|].
    intros Hacc Hsl. rewrite Hl in Hsl.
    change (k ++ 61%N :: v) with (k ++ [61%N] ++ v) in Hsl.
    rewrite !single_line_app in Hsl.
    apply andb_true_iff in Hsl as [Hks Hsl].
    apply andb_true_iff in Hsl as [_ Hvs].
    now apply env_ok_set.
  - now exists acc.
Qed.

Lemma read_lines_ok (lines : list str) (acc : dict) :
  exists d, read_lines lines acc = Ok d /\
            (env_ok acc -> Forall (fun l => single_line l = true) lines ->
             env_ok d).
Proof.
  revert acc. induction lines as [|line lines IH]; intros acc; simpl.
  - now exists acc.
  - destruct (read_line_ok acc line) as (d1 & -> & H1).
    destruct (IH d1) as (d & Hd & H2). exists d. split; [exact Hd|].
    intros Hacc Hall. inversion Hall; subst. auto.
Qed.

Lemma read_env_ok (text : str) :
  exists d, read_env text = Ok d /\ env_ok d.
Proof.
  unfold read_env.
  destruct (read_lines_ok (splitlines text) []) as (d & Hd & H).
  exists d. split; [exact Hd|]. apply H; [apply env_ok_nil|].
  exact (splitlines_lines_single (length text) text (Nat.le_refl _)).
Qed.

Lemma read_lines_rendered (d acc : dict) :
  Forall (fun kv => ~ In 61%N (fst kv)) d ->
  read_lines (map item_line d) acc =
  Ok (fold_left (fun a kv => dict_set a (fst kv) (snd kv)) d acc).
Proof.
  revert acc. induction d as [|[k v] d IH]; intros acc H; [reflexivity|].
  inversion H as [|? ? Hk Hd]; subst. simpl in Hk.
  cbn [map read_lines fold_left]. unfold read_line, item_line. cbn [fst snd].
  rewrite contains_intro.
  change (k ++ lit "=" ++ v) with (k ++ 61%N :: v).
  rewrite (split1_key _ _ _ Hk). apply IH, Hd.
Qed.

Lemma item_lines_plain (d : dict) :
  env_ok d ->
  Forall (fun l => single_line l = true /\ l <> []) (map item_line d).
Proof.
  intros [_ H]. induction H as [|[k v] d (Hk & Hks & Hvs) _ IH];
    [constructor|].
  constructor; [|exact IH]. unfold item_line. cbn [fst snd] in *. split.
  - rewrite !single_line_app, Hks, Hvs. reflexivity.
  - destruct k; discriminate.
Qed.

Lemma env_ok_keys (d : dict) :
  env_ok d -> Forall (fun kv => ~ In 61%N (fst kv)) d.
Proof.
  intros [_ H]. eapply Forall_impl; [|exact H]. now intros kv (Hk & _).
Qed.

Lemma read_env_rendered (d : dict) :
  env_ok d -> read_env (render_env d) = Ok d.
Proof.
  intros Hd. unfold read_env. rewrite render_env_lines.
  rewrite (splitlines_join _ (item_lines_plain d Hd)).
  rewrite (read_lines_rendered d [] (env_ok_keys d Hd)).
  f_equal. apply (fold_set_fresh d []). apply Hd.
Qed.

End EnvFacts.

Section KeyFileTheorems.

Lemma groq_key_plain :
  ~ In 61%N GROQ_API_KEY /\ single_line GROQ_API_KEY = true.
Proof.
  split; [|reflexivity].
  unfold GROQ_API_KEY. simpl. intuition discriminate.
Qed.

(** What a successful save wrote, in terms of the dictionary read before. *)
Lemma save_env_file_inv (g : str) (disk : Disk) (text : str) :
  save_env_file g disk = Ok text ->
  exists before,
    (if disk_exists disk
     then exists old, disk_read disk = Ok old /\ read_env old = Ok before
     else before = []) /\
    env_ok before /\
    text = render_env (if truthy g then dict_set before GROQ_API_KEY g
                       else before).
Proof.
  unfold save_env_file. intros H.
  destruct (disk_exists disk).
  - destruct (disk_read disk) as [old|e]; [|discriminate].
    destruct (read_env_ok old) as (d0 & Hr & Hok). rewrite Hr in H.
    destruct (disk_write disk _) as [u|e]; [|discriminate].
    injection H as <-. exists d0.
    split; [now exists old|]. split; [exact Hok|reflexivity].
  - destruct (disk_write disk _) as [u|e]; [|discriminate].
    injection H as <-. exists [].
    split; [reflexivity|]. split; [apply env_ok_nil|reflexivity].
Qed.

Lemma env_ok_after (g : str) (before : dict) :
  env_ok before -> single_line g = true ->
  env_ok (if truthy g then dict_set before GROQ_API_KEY g else before).
Proof.
  intros Hok Hg. destruct (truthy g); [|exact Hok].
  destruct groq_key_plain as [H1 H2]. now apply env_ok_set.
Qed.

(** X10.  Reading a key file never fails, whatever the text: a line with
    [=] always unpacks into a key and a value.  The dictionary read has
    no key twice, no [=] in a key and no line boundary in a key or a
    value. *)
Theorem read_env_never_fails (text : str) :
  exists env_values, read_env text = Ok env_values /\ env_ok env_values.
Proof. exact (read_env_ok text). Qed.

(** X11.  Round trip: the text written for a dictionary (no key twice, no
    [=] in a key, no line boundary in keys and values) is read back as
    that dictionary, in the same order. *)
Theorem read_env_render_env (env_values : dict) :
  env_ok env_values -> read_env (render_env env_values) = Ok env_values.
Proof. exact (read_env_rendered env_values). Qed.

(** X12.  After a successful save with a key that holds no line boundary,
    reading the file written gives the dictionary read before with the
    key set: [GROQ_API_KEY] maps to the key entered when it is not empty,
    and every other key keeps the value it had (or stays absent). *)
Theorem save_env_file_read_back (g : str) (disk : Disk) (text : str) :
  save_env_file g disk = Ok text ->
  single_line g = true ->
  exists before after,
    (if disk_exists disk
     then exists old, disk_read disk = Ok old /\ read_env old = Ok before
     else before = []) /\
    read_env text = Ok after /\
    after = (if truthy g then dict_set before GROQ_API_KEY g else before) /\
    (truthy g = true -> dict_get after GROQ_API_KEY = Some g) /\
    (forall k, k <> GROQ_API_KEY -> dict_get after k = dict_get before k).
Proof.
  intros H Hg. destruct (save_env_file_inv _ _ _ H) as (before & Hb & Hok & ->).
  exists before. eexists. split; [exact Hb|].
  split; [apply read_env_rendered, env_ok_after; assumption|].
  split; [reflexivity|]. split.
  - intros ->. apply dict_get_set_same.
  - intros k Hk. destruct (truthy g); [|reflexivity].
    now apply dict_get_set_other.
Qed.

(** X13.  For a key that holds no line boundary, saving is idempotent:
    saving the same key again over the file just written writes the same
    text. *)
Theorem save_env_file_idempotent (g : str) (disk disk' : Disk) (text : str) :
  save_env_file g disk = Ok text ->
  single_line g = true ->
  disk_exists disk' = true ->
  disk_read disk' = Ok text ->
  (forall t, disk_write disk' t = Ok tt) ->
  save_env_file g disk' = Ok text.
Proof.
  intros H Hg He Hr Hw.
  destruct (save_env_file_inv _ _ _ H) as (before & _ & Hok & ->).
  unfold save_env_file. rewrite He, Hr.
  rewrite (read_env_rendered _ (env_ok_after g before Hok Hg)).
  rewrite Hw. f_equal. f_equal.
  destruct (truthy g); [|reflexivity]. apply dict_set_idem.
Qed.

(** X14.  For a key that holds no line boundary, every line of a file
    written by a save holds [=]: lines of the old file without [=]
    (comments, blank lines) are not written back. *)
Theorem save_env_file_lines (g : str) (disk : Disk) (text : str) :
  save_env_file g disk = Ok text ->
  single_line g = true ->
  forall line, In line (splitlines text) -> contains (lit "=") line = true.
Proof.
  intros H Hg line Hin.
  destruct (save_env_file_inv _ _ _ H) as (before & _ & Hok & ->).
  rewrite render_env_lines in Hin.
  rewrite (splitlines_join _ (item_lines_plain _ (env_ok_after g before Hok Hg)))
    in Hin.
  apply in_map_iff in Hin as ([k v] & <- & _).
  unfold item_line. apply contains_intro.
Qed.

(** X15.  A key entered in the side bar and applied is the key the
    application goes by from then on, whether or not it was saved and
    whatever became of the environment and of the file; with a blank
    entry the state is left as it was. *)
Theorem apply_keys_current_key (g : str) (save_env : bool)
    (setenv : result unit) (disk : Disk) (s : KeyState) :
  let s' := applied_state (apply_keys g save_env setenv disk s) in
  (truthy g = true ->
   current_key s' = Ok (Some g) /\ stops_without_key (Some g) = false) /\
  (truthy g = false -> s' = s).
Proof.
  assert (Hs : applied_state (apply_keys g save_env setenv disk s) =
               if truthy g
               then {| session_key := Some g;
                       environ_key := match setenv with
                                      | Ok _ => Some g
                                      | Raise _ => environ_key s
                                      end |}
               else s).
  { unfold apply_keys. destruct (truthy g).
    - destruct setenv as [u|e]; [|reflexivity].
      destruct save_env; [|reflexivity].
      destruct (save_env_file g disk) as [t|e]; [reflexivity|].
      destruct (is_Exception e); reflexivity.
    - destruct save_env; [|reflexivity].
      destruct (save_env_file g disk) as [t|e]; [reflexivity|].
      destruct (is_Exception e); reflexivity. }
  cbv zeta. rewrite Hs. split; intros Hg; rewrite Hg.
  - unfold current_key, _get_env_key, stops_without_key. simpl.
    rewrite Hg. now split.
  - reflexivity.
Qed.

(** X16.  When the file exists and reading it raises an [Exception],
    nothing is written, one error notice with [str(e)] is shown and no
    exception leaves the handler; a key that was entered is applied to the
    session all the same. *)
Theorem apply_keys_read_failure (g : str) (disk : Disk) (s : KeyState)
    (e : exn) :
  disk_exists disk = true ->
  disk_read disk = Raise e ->
  is_Exception e = true ->
  let a := apply_keys g true (Ok tt) disk s in
  applied_written a = None /\
  applied_notices a = [NoticeError (lit "Failed to write .env: " ++ exn_str e)] /\
  applied_raised a = None /\
  (truthy g = true -> current_key (applied_state a) = Ok (Some g)).
Proof.
  intros He Hr Hx. cbv zeta. unfold apply_keys, save_env_file.
  rewrite He, Hr, Hx.
  destruct (truthy g) eqn:Hg; cbn; repeat split; try discriminate.
  intros _. unfold current_key, _get_env_key. simpl. now rewrite Hg.
Qed.

End KeyFileTheorems.

Lemma read_env_render_env_witness :
  read_env (lit "A=1" ++ nl ++ lit "B=x=y")
  = Ok [(lit "A", lit "1"); (lit "B", lit "x=y")].
Proof.
  apply (read_env_render_env [(lit "A", lit "1"); (lit "B", lit "x=y")]).
  split.
  - repeat constructor; simpl; intuition discriminate.
  - repeat constructor; simpl; intuition discriminate.
Defined.

Lemma save_env_file_read_back_witness :
  exists after,
    read_env DemoKeys.new_text = Ok after /\
    dict_get after GROQ_API_KEY = Some (lit "gsk_123") /\
    dict_get after (lit "DEBUG") = Some (lit "1").
Proof.
  destruct (save_env_file_read_back (lit "gsk_123") DemoKeys.disk
              DemoKeys.new_text eq_refl eq_refl)
    as (before & after & Hb & Ha & _ & Hk & Ho).
  exists after. split; [exact Ha|]. split; [exact (Hk eq_refl)|].
  destruct Hb as (old & Hold & Hread).
  injection Hold as <-.
  rewrite (Ho (lit "DEBUG")) by discriminate.
  vm_compute in Hread. injection Hread as <-. reflexivity.
Defined.

Lemma save_env_file_idempotent_witness :
  save_env_file (lit "gsk_123") DemoKeys.disk_after = Ok DemoKeys.new_text.
Proof.
  apply (save_env_file_idempotent (lit "gsk_123") DemoKeys.disk
           DemoKeys.disk_after DemoKeys.new_text);
    reflexivity.
Defined.

Lemma save_env_file_lines_witness :
  contains (lit "=") (lit "DEBUG=1") = true.
Proof.
  apply (save_env_file_lines (lit "gsk_123") DemoKeys.disk DemoKeys.new_text
           eq_refl eq_refl).
  left. reflexivity.
Defined.

Lemma apply_keys_current_key_witness :
  current_key
    (applied_state
       (apply_keys (lit "gsk_123") true (Ok tt) DemoKeys.unreadable
          DemoKeys.no_key))
  = Ok (Some (lit "gsk_123")) /\
  applied_state (apply_keys [] true (Ok tt) DemoKeys.disk DemoKeys.no_key)
  = DemoKeys.no_key.
Proof.
  split.
  - exact (proj1 (proj1 (apply_keys_current_key (lit "gsk_123") true (Ok tt)
                           DemoKeys.unreadable DemoKeys.no_key) eq_refl)).
  - exact (proj2 (apply_keys_current_key [] true (Ok tt) DemoKeys.disk
                    DemoKeys.no_key) eq_refl).
Defined.

Lemma apply_keys_read_failure_witness :
  applied_notices
    (apply_keys (lit "gsk_123") true (Ok tt) DemoKeys.unreadable
       DemoKeys.no_key)
  = [NoticeError (lit "Failed to write .env: "
                  ++ lit "[Errno 13] Permission denied")].
Proof.
  exact (proj1 (proj2 (apply_keys_read_failure (lit "gsk_123")
                         DemoKeys.unreadable DemoKeys.no_key
                         DemoKeys.permission_denied
                         eq_refl eq_refl eq_refl))).
Defined.

(** ** The loop over the lines, and the upload *)

Section LoopAndUpload.

Lemma read_lines_app (l1 l2 : list str) (acc : dict) :
  read_lines (l1 ++ l2) acc =
  match read_lines l1 acc with
  | Ok d => read_lines l2 d
  | Raise e => Raise e
  end.
Proof.
  revert acc. induction l1 as [|l l1 IH]; intros acc; simpl; [reflexivity|].
  destruct (read_line acc l); [apply IH|reflexivity].
Qed.

(** X17.  Of several lines that set the same key the last one gives the
    value: whatever lines come before, after a line [k=v] (no [=] in [k])
    the key [k] maps to [v]. *)
Theorem read_lines_last_wins (lines : list str) (acc : dict) (k v : str) :
  ~ In 61%N k ->
  exists d, read_lines (lines ++ [k ++ lit "=" ++ v]) acc = Ok d /\
            dict_get d k = Some v.
Proof.
  intros Hk. rewrite read_lines_app.
  destruct (read_lines_ok lines acc) as (d1 & -> & _).
  cbn [read_lines]. unfold read_line. rewrite contains_intro.
  change (k ++ lit "=" ++ v) with (k ++ 61%N :: v).
  rewrite (split1_key _ _ _ Hk).
  eexists. split; [reflexivity|]. apply dict_get_set_same.
Qed.

Lemma endswith_app (stem suffix : str) : endswith (stem ++ suffix) suffix = true.
Proof.
  unfold endswith. rewrite length_app.
  apply andb_true_iff. split; [apply Nat.leb_le; lia|].
  replace (length stem + length suffix - length suffix)%nat
    with (length stem) by lia.
  rewrite skipn_app, skipn_all, Nat.sub_diag. simpl. apply eqb_refl.
Qed.

Lemma endswith_split (s suffix : str) :
  endswith s suffix = true -> exists stem, s = stem ++ suffix.
Proof.
  unfold endswith. intros H. apply andb_true_iff in H as [_ H].
  apply eqb_eq in H.
  exists (firstn (length s - length suffix) s).
  rewrite <- (firstn_skipn (length s - length suffix) s) at 1.
  now rewrite H.
Qed.

Lemma last_char_differs (a b x y : str) (c d : char) :
  c <> d -> a ++ x ++ [c] <> b ++ y ++ [d].
Proof.
  intros Hcd H. apply (f_equal (@rev char)) in H.
  rewrite !rev_app_distr in H. simpl in H. injection H as H _. contradiction.
Qed.

(** X18.  The reader is chosen by the end of the file name as it is
    written: [pd.read_csv] exactly for the names that end with [.csv] in
    lower case; names that end with [.xlsx], [.xls] or the upper-case
    [.CSV] go to [pd.read_excel]. *)
Theorem reader_for_extension (name : str) :
  (reader_for name = ReadCsv <-> exists stem, name = stem ++ lit ".csv") /\
  (forall stem,
     name = stem ++ lit ".xlsx" \/ name = stem ++ lit ".xls" \/
     name = stem ++ lit ".CSV" ->
     reader_for name = ReadExcel).
Proof.
  assert (Hiff : reader_for name = ReadCsv <->
                 exists stem, name = stem ++ lit ".csv").
  { unfold reader_for. split.
    - destruct (endswith name (lit ".csv")) eqn:E; [|discriminate].
      intros _. exact (endswith_split _ _ E).
    - intros [stem ->]. now rewrite endswith_app. }
  split; [exact Hiff|].
  intros stem H.
  assert (Hn : reader_for name <> ReadCsv);
    [|destruct (reader_for name); congruence].
  intros R. apply Hiff in R as [stem' ->].
  destruct H as [H|[H|H]]; revert H.
  - exact (last_char_differs stem' stem (lit ".cs") (lit ".xls")
             118%N 120%N ltac:(discriminate)).
  - exact (last_char_differs stem' stem (lit ".cs") (lit ".xl")
             118%N 115%N ltac:(discriminate)).
  - exact (last_char_differs stem' stem (lit ".cs") (lit ".CS")
             118%N 86%N ltac:(discriminate)).
Qed.

End LoopAndUpload.

Lemma read_lines_last_wins_witness :
  exists d,
    read_lines [lit "GROQ_API_KEY=first"; lit "# note";
                lit "GROQ_API_KEY" ++ lit "=" ++ lit "second"] []
    = Ok d /\
    dict_get d GROQ_API_KEY = Some (lit "second").
Proof.
  apply (read_lines_last_wins [lit "GROQ_API_KEY=first"; lit "# note"] []
           GROQ_API_KEY (lit "second")).
  simpl. intuition discriminate.
Defined.

Lemma reader_for_extension_witness :
  reader_for (lit "sales.csv") = ReadCsv /\
  reader_for (lit "SALES.CSV") = ReadExcel.
Proof.
  split.
  - apply (proj1 (reader_for_extension (lit "sales.csv"))).
    now exists (lit "sales").
  - apply (proj2 (reader_for_extension (lit "SALES.CSV")) (lit "SALES")).
    right. right. reflexivity.
Defined.

(** ** The block with its first statements *)

Section BlockFacts.
Context {E : Externals}.

Lemma analysis_block_cases (labels : Labels) (df : DataFrame Cell)
    (query : str) (sql_only : bool) (w : World) :
  truthy query = true ->
  analysis_block labels df query sql_only true w =
  match register_error (lit "data_df") df w with
  | Some e => (Raise e, w, [])
  | None =>
      let '(r, w', t) :=
        after_registration labels df query sql_only
          (register (lit "data_df") df w) in
      (r, w', EvRegister (lit "data_df") df :: t)
  end.
Proof.
  intros Hq. unfold analysis_block. rewrite Hq. cbn [andb].
  unfold bind at 1. unfold duckdb_register_call.
  destruct (register_error (lit "data_df") df w); reflexivity.
Qed.

Lemma after_registration_not_str (position : nat) (type_name : str)
    (df : DataFrame Cell) (query : str) (sql_only : bool) (w : World) :
  after_registration (NotStr position type_name) df query sql_only w =
  (Raise (join_type_error position type_name), w, []).
Proof. reflexivity. Qed.

Lemma bind_pure {A B : Type} (c : M A) (k : A -> M B) (w : World) (a : A) :
  c w = (Ok a, w, []) -> bind c k w = k a w.
Proof.
  intros H. unfold bind. rewrite H.
  destruct (k a w) as [[r w2] t2]. reflexivity.
Qed.

Lemma after_registration_all_str (df : DataFrame Cell) (query : str)
    (sql_only : bool) (w : World) :
  after_registration AllStr df query sql_only w =
  try_except_Exception
    (reply <- (st (Spinner (lit "Generating SQL query...")) ;;;
               call_groq_model system_prompt (user_msg df query)
                               DEFAULT_MODEL) ;;
     show_reply reply sql_only)
    (fun e =>
       st (Error (cross_mark ++ lit " Error: " ++ exn_str e)) ;;;
       st (Info (lit "Make sure your GROQ_API_KEY is valid and the model is available.")))
    w.
Proof.
  unfold after_registration.
  refine (bind_pure _ _ _ (user_msg df query) eq_refl).
Qed.

(** Where the labels are strings, what follows the registration is what
    [run_analysis] has behind it. *)
Lemma run_analysis_after (df : DataFrame Cell) (query : str)
    (sql_only : bool) (w : World) :
  truthy query = true ->
  run_analysis df query sql_only true w =
  let '(r, w', t) :=
    after_registration AllStr df query sql_only
      (register (lit "data_df") df w) in
  (r, w', EvRegister (lit "data_df") df :: t).
Proof.
  intros Hq. rewrite after_registration_all_str.
  unfold run_analysis. rewrite Hq. cbn [andb].
  unfold bind at 1. unfold duckdb_register.
  destruct (try_except_Exception _ _ (register (lit "data_df") df w))
    as [[r w'] t].
  reflexivity.
Qed.

(** On a frame that the engine accepts and whose labels are strings the
    block is [run_analysis]. *)
Lemma analysis_block_accepted (df : DataFrame Cell) (query : str)
    (sql_only run : bool) (w : World) :
  register_error (lit "data_df") df w = None ->
  analysis_block AllStr df query sql_only run w =
  run_analysis df query sql_only run w.
Proof.
  intros Hr. destruct (truthy query && run) eqn:G.
  - apply andb_true_iff in G as [Hq ->].
    now rewrite (analysis_block_cases _ _ _ _ _ Hq), Hr,
      (run_analysis_after _ _ _ _ Hq).
  - unfold analysis_block, run_analysis. now rewrite G.
Qed.

End BlockFacts.

(** C10, as stated, fails on a run whose registration raises: the engine
    refuses a frame without columns, line 171 stands before the [try], the
    run ends there with the engine's exception, and the frame is not
    registered: the world is as it was and the trace holds no
    registration. *)
Lemma registration_in_every_run_counterexample :
  let w := ([Ok (lit "EXPLANATION: nothing to query")], []) in
  truthy Demo.question = true /\
  @analysis_block Demo.recording AllStr Demo.empty_frame Demo.question
    false true w
  = (Raise Demo.no_columns, w, []) /\
  ~ In (@EvRegister Demo.recording (lit "data_df") Demo.empty_frame)
       (snd (@analysis_block Demo.recording AllStr Demo.empty_frame
               Demo.question false true w)).
Proof.
  split; [reflexivity|]. split; [reflexivity|]. intros [].
Qed.

Section RegistrationFirst.
Context {E : Externals}.

(** C10, amended.  In a run (the question is not empty and the button was
    pressed) the registration of the frame as [data_df] comes first.  When
    it raises, the run ends with that exception: nothing is registered,
    the service is not called and no SQL is executed.  When it does not,
    the frame is registered in the engine, the rest of the run goes on
    from the world with the registration, and every call of the service
    and every execution of SQL comes after it, whatever the reply turns
    out to be and whether or not SQL is executed at all; with string
    labels the service is called in the world with the registration. *)
Theorem registered_before_model_and_sql (labels : Labels)
    (df : DataFrame Cell) (query : str) (sql_only : bool) (w : World) :
  truthy query = true ->
  match register_error (lit "data_df") df w with
  | Some e =>
      analysis_block labels df query sql_only true w = (Raise e, w, [])
  | None =>
      exists r w' rest,
        analysis_block labels df query sql_only true w
        = (r, w', EvRegister (lit "data_df") df :: rest) /\
        after_registration labels df query sql_only
          (register (lit "data_df") df w) = (r, w', rest) /\
        (forall pre ev post,
            EvRegister (lit "data_df") df :: rest = pre ++ ev :: post ->
            (exists model messages, ev = EvCreate model messages) \/
            (exists sql, ev = EvSql sql) ->
            In (EvRegister (lit "data_df") df) pre) /\
        (labels = AllStr ->
         exists tail,
           rest = EvUi (Spinner (lit "Generating SQL query...")) ::
                  snd (call_groq_model system_prompt (user_msg df query)
                         DEFAULT_MODEL (register (lit "data_df") df w))
                  ++ tail)
  end.
Proof.
  intros Hq. rewrite (analysis_block_cases labels df query sql_only w Hq).
  destruct (register_error (lit "data_df") df w) as [e|] eqn:Hr;
    [reflexivity|].
  destruct (after_registration labels df query sql_only
              (register (lit "data_df") df w)) as [[r w'] rest] eqn:Ha.
  exists r, w', rest. split; [reflexivity|]. split; [reflexivity|]. split.
  - intros pre ev post Hsplit Hev. destruct pre as [|x pre].
    + simpl in Hsplit. injection Hsplit as <- _.
      destruct Hev as [(m & ms & Hm) | (s & Hs)]; discriminate.
    + simpl in Hsplit. injection Hsplit as <- _. now left.
  - intros ->.
    destruct (run_trace_shape df query sql_only w Hq)
      as (t1 & tail & Htr & Ht1 & _).
    rewrite (run_analysis_after df query sql_only w Hq), Ha in Htr.
    simpl in Htr. injection Htr as ->. exists tail. now rewrite Ht1.
Qed.

(** X6.  An exception of class [Exception] leaves the analysis block only
    from the statements before its [try]: it is the exception of the
    registration, with nothing done, or the [TypeError] of joining labels
    that are not strings, with the frame registered and nothing else
    done.  What the service and the engine raise of that class is caught
    and shown. *)
Theorem analysis_block_escaping_exceptions (labels : Labels)
    (df : DataFrame Cell) (query : str) (sql_only run : bool)
    (w w' : World) (e : exn) (t : list event) :
  analysis_block labels df query sql_only run w = (Raise e, w', t) ->
  is_Exception e = true ->
  (register_error (lit "data_df") df w = Some e /\ w' = w /\ t = []) \/
  (exists position type_name,
     labels = NotStr position type_name /\
     e = join_type_error position type_name /\
     register_error (lit "data_df") df w = None /\
     w' = register (lit "data_df") df w /\
     t = [EvRegister (lit "data_df") df]).
Proof.
  intros H He. destruct (truthy query && run) eqn:G.
  2:{ unfold analysis_block in H. rewrite G in H. discriminate. }
  apply andb_true_iff in G as [Hq ->].
  rewrite (analysis_block_cases labels df query sql_only w Hq) in H.
  destruct (register_error (lit "data_df") df w) as [e0|] eqn:Hr.
  - left. injection H as <- <- <-. now repeat split.
  - destruct labels as [|position type_name].
    + exfalso.
      rewrite <- (run_analysis_after df query sql_only w Hq) in H.
      apply run_analysis_catches in H. congruence.
    + right. rewrite after_registration_not_str in H.
      injection H as <- <- <-. exists position, type_name. now repeat split.
Qed.

(** X9.  A run calls the completion service at most once: not at all when
    the registration or the join of the labels raises, and otherwise
    exactly once, right after the registration and the spinner, with the
    default model and the system and user messages; the fallback model is
    never called from the block (the lower-cased name of the default
    model holding no [mixtral]). *)
Theorem analysis_block_calls_once (labels : Labels) (df : DataFrame Cell)
    (query : str) (sql_only : bool) (w : World) :
  let messages :=
    [ {| role := lit "system"; content := system_prompt |};
      {| role := lit "user"; content := user_msg df query |} ] in
  let trace := snd (analysis_block labels df query sql_only true w) in
  truthy query = true ->
  contains (lit "mixtral") (lower DEFAULT_MODEL) = false ->
  match register_error (lit "data_df") df w, labels with
  | Some _, _ => trace = []
  | None, NotStr _ _ => trace = [EvRegister (lit "data_df") df]
  | None, AllStr =>
      exists tail,
        trace = [EvRegister (lit "data_df") df;
                 EvUi (Spinner (lit "Generating SQL query..."));
                 EvCreate DEFAULT_MODEL messages] ++ tail /\
        forall m ms, ~ In (EvCreate m ms) tail
  end.
Proof.
  intros messages trace Hq Hl. unfold trace.
  destruct (register_error (lit "data_df") df w) as [e|] eqn:Hr.
  - now rewrite (analysis_block_cases labels df query sql_only w Hq), Hr.
  - destruct labels as [|position type_name].
    + rewrite (analysis_block_accepted df query sql_only true w Hr).
      exact (run_analysis_calls df query sql_only w Hq Hl).
    + rewrite (analysis_block_cases _ df query sql_only w Hq), Hr.
      now rewrite after_registration_not_str.
Qed.

End RegistrationFirst.

Lemma registered_before_model_and_sql_witness :
  let w := ([Ok (lit "EXPLANATION: the data has no such column")], []) in
  (exists r w' rest,
     @analysis_block Demo.recording AllStr Demo.salaries Demo.question
       true true w
     = (r, w', @EvRegister Demo.recording (lit "data_df") Demo.salaries
               :: rest) /\
     @after_registration Demo.recording AllStr Demo.salaries Demo.question
       true ([Ok (lit "EXPLANATION: the data has no such column")],
             [(lit "data_df", Demo.salaries)])
     = (r, w', rest)) /\
  snd (snd (fst (@analysis_block Demo.recording AllStr Demo.salaries
                   Demo.question true true w)))
  = [(lit "data_df", Demo.salaries)].
Proof.
  split; [|reflexivity].
  destruct (@registered_before_model_and_sql Demo.recording AllStr
              Demo.salaries Demo.question true
              ([Ok (lit "EXPLANATION: the data has no such column")], [])
              eq_refl)
    as (r & w' & rest & H1 & H2 & _).
  exists r, w', rest. split; [exact H1|exact H2].
Defined.

Lemma analysis_block_escaping_exceptions_witness :
  Demo.recording.(register_error) (lit "data_df") Demo.salaries
    ([] , []) = None /\
  join_type_error 2 (lit "int")
  = {| is_Exception := true;
       exn_str := lit "sequence item 2: expected str instance, int found" |}.
Proof.
  destruct (@analysis_block_escaping_exceptions Demo.recording
              (NotStr 2 (lit "int")) Demo.salaries Demo.question false true
              ([], []) ([], [(lit "data_df", Demo.salaries)])
              (join_type_error 2 (lit "int"))
              [@EvRegister Demo.recording (lit "data_df") Demo.salaries]
              eq_refl eq_refl)
    as [(H & _) | (i & ty & _ & _ & H & _)].
  - discriminate H.
  - split; [exact H|reflexivity].
Defined.

Lemma analysis_block_calls_once_witness :
  snd (@analysis_block Demo.recording AllStr Demo.empty_frame Demo.question
         false true ([Ok (lit "SELECT 1")], []))
  = [] /\
  exists tail,
    snd (@analysis_block Demo.recording AllStr Demo.salaries Demo.question
           false true ([Ok (lit "SELECT COUNT(*) FROM data_df")], []))
    = [@EvRegister Demo.recording (lit "data_df") Demo.salaries;
       EvUi (Spinner (lit "Generating SQL query..."));
       EvCreate DEFAULT_MODEL
         [ {| role := lit "system"; content := system_prompt |};
           {| role := lit "user";
              content := @user_msg Demo.recording Demo.salaries
                           Demo.question |} ]] ++ tail /\
    forall m ms, ~ In (EvCreate m ms) tail.
Proof.
  split.
  - exact (@analysis_block_calls_once Demo.recording AllStr Demo.empty_frame
             Demo.question false ([Ok (lit "SELECT 1")], [])
             eq_refl eq_refl).
  - exact (@analysis_block_calls_once Demo.recording AllStr Demo.salaries
             Demo.question false
             ([Ok (lit "SELECT COUNT(*) FROM data_df")], [])
             eq_refl eq_refl).
Defined.
